(** * GitHubScanner: a shallow embedding of trufflehog.py

    The scanner object, the credential pool, the scan invoker, the finding
    processor, the notifier and the scheduling loop of [trufflehog.py] are
    embedded as executable functions over an explicit world (the fields of
    the [GitHubScanner] instance, the file system, the clock).  Every effect
    the outside can observe (engine run, file write, message post, sleep) is
    emitted as an event.  Logging is not part of the model. *)

From Stdlib Require Import ZArith NArith List String Ascii SpecFloat.
From stdpp Require Import base option list gmap sets.

Set Warnings "-register-all".
Local Open Scope Z_scope.

(** ** Python strings

    A Python [str] is a sequence of Unicode code points; [len] is the number
    of code points.  Literals of the source that are plain ASCII are written
    with [lit]; the pictographs are given by their code points. *)

Abbreviation pystr := (list N).

Definition lit (s : string) : pystr :=
  map N_of_ascii (list_ascii_of_string s).

Arguments lit : simpl never.

Definition len (s : pystr) : Z := Z.of_nat (length s).

Definition str_eqb (a b : pystr) : bool := bool_decide (a = b).

(** [needle in hay] for strings. *)
Fixpoint startswith (hay needle : pystr) : bool :=
  match needle, hay with
  | [], _ => true
  | _ :: _, [] => false
  | n :: needle', h :: hay' => N.eqb n h && startswith hay' needle'
  end.

Fixpoint str_contains (needle hay : pystr) : bool :=
  startswith hay needle ||
  match hay with
  | [] => false
  | _ :: hay' => str_contains needle hay'
  end.

(** [str.isspace] on one code point: the characters [str.strip()] removes. *)
Definition isspace (c : N) : bool :=
  ((9 <=? c) && (c <=? 13) || (28 <=? c) && (c <=? 32)
   || (c =? 133) || (c =? 160) || (c =? 5760)
   || (8192 <=? c) && (c <=? 8202)
   || (c =? 8232) || (c =? 8233) || (c =? 8239) || (c =? 8287)
   || (c =? 12288))%N.

Fixpoint lstrip (s : pystr) : pystr :=
  match s with
  | c :: s' => if isspace c then lstrip s' else s
  | [] => []
  end.

Definition strip (s : pystr) : pystr := rev (lstrip (rev (lstrip s))).

(** Line boundaries of [str.splitlines]: LF, VT, FF, FS, GS, RS, NEL, LS, PS,
    and CR (alone or followed by LF). *)
Definition is_linebreak (c : N) : bool :=
  ((10 <=? c) && (c <=? 13) || (28 <=? c) && (c <=? 30)
   || (c =? 133) || (c =? 8232) || (c =? 8233))%N.

(** [splitlines_go cur s]: [cur] is the current line, reversed. *)
Fixpoint splitlines_go (cur : pystr) (s : pystr) : list pystr :=
  match s with
  | [] => match cur with [] => [] | _ => [rev cur] end
  | c :: s' =>
      if (c =? 13)%N then
        match s' with
        | 10%N :: s'' => rev cur :: splitlines_go [] s''
        | _ => rev cur :: splitlines_go [] s'
        end
      else if is_linebreak c then rev cur :: splitlines_go [] s'
      else splitlines_go (c :: cur) s'
  end.

Definition splitlines (s : pystr) : list pystr := splitlines_go [] s.

(** Iterating a file opened in text mode: universal newlines turn CR LF and
    a lone CR into LF, and each line keeps its final LF. *)
Fixpoint universal_newlines (s : pystr) : pystr :=
  match s with
  | [] => []
  | c :: s' =>
      if (c =? 13)%N then
        match s' with
        | 10%N :: s'' => 10%N :: universal_newlines s''
        | _ => 10%N :: universal_newlines s'
        end
      else c :: universal_newlines s'
  end.

Fixpoint file_lines_go (cur : pystr) (s : pystr) : list pystr :=
  match s with
  | [] => match cur with [] => [] | _ => [rev cur] end
  | c :: s' =>
      if (c =? 10)%N then rev (c :: cur) :: file_lines_go [] s'
      else file_lines_go (c :: cur) s'
  end.

Definition file_lines (content : pystr) : list pystr :=
  file_lines_go [] (universal_newlines content).

(** [[line.strip() for line in f if line.strip()]] *)
Definition stripped_lines (content : pystr) : list pystr :=
  map strip (filter (fun line => strip line ≠ []) (file_lines content)).

(** ** Values produced by [json.loads]

    An object is kept as the sequence of its members, in the order the
    parser inserted them (the order [json.dump] writes them back). *)

Inductive json : Type :=
| JNull
| JBool (b : bool)
| JInt (z : Z)
| JFloat (f : spec_float)
| JStr (s : pystr)
| JArr (l : list json)
| JObj (o : list (pystr * json)).

(** Python truthiness, as used by [not x] and [if x]. *)
Definition truthy (v : json) : bool :=
  match v with
  | JNull => false
  | JBool b => b
  | JInt z => negb (z =? 0)
  | JFloat (S754_zero _) => false
  | JFloat _ => true
  | JStr s => match s with [] => false | _ => true end
  | JArr l => match l with [] => false | _ => true end
  | JObj o => match o with [] => false | _ => true end
  end.

Definition isinstance_dict (v : json) : bool :=
  match v with JObj _ => true | _ => false end.

Definition type_name (v : json) : pystr :=
  match v with
  | JNull => lit "NoneType"
  | JBool _ => lit "bool"
  | JInt _ => lit "int"
  | JFloat _ => lit "float"
  | JStr _ => lit "str"
  | JArr _ => lit "list"
  | JObj _ => lit "dict"
  end.

(** ** Exceptions *)

Inductive exn_class : Type :=
| FileNotFoundError | ValueError | AttributeError | IndexError.

Record exn : Type := Exn { exn_cls : exn_class; exn_msg : pystr }.

(** [str(e)] *)
Definition str_of_exn (e : exn) : pystr := exn_msg e.

(** A pure computation that may raise. *)
Inductive pyres (A : Type) : Type :=
| Ok (a : A)
| Err (e : exn).
Arguments Ok {A} a.
Arguments Err {A} e.

Definition pyres_bind {A B} (r : pyres A) (k : A → pyres B) : pyres B :=
  match r with
  | Ok a => k a
  | Err e => Err e
  end.

#[global] Instance pyres_mret : MRet pyres := @Ok.
#[global] Instance pyres_mbind : MBind pyres :=
  fun A B k r => pyres_bind r k.

(** [d.get(key, default)] on a dict. *)
Fixpoint dict_get (o : list (pystr * json)) (key : pystr) (default : json) : json :=
  match o with
  | [] => default
  | (k, v) :: o' => if str_eqb k key then v else dict_get o' key default
  end.

(** [v.get(key, default)] on whatever [v] is: only a dict has [get]. *)
Definition py_get (v : json) (key : pystr) (default : json) : pyres json :=
  match v with
  | JObj o => Ok (dict_get o key default)
  | _ => Err (Exn AttributeError
                (lit "'" ++ type_name v ++ lit "' object has no attribute 'get'"))
  end.

(** [x.get("SourceMetadata", {}).get("Data", {}).get("Github", {})] *)
Definition github_data (entry : json) : pyres json :=
  sm ← py_get entry (lit "SourceMetadata") (JObj []);
  data ← py_get sm (lit "Data") (JObj []);
  py_get data (lit "Github") (JObj []).

(** ** Configuration *)

(** [os.path.join] for two components (POSIX). *)
Definition path_join (a b : pystr) : pystr :=
  if startswith b (lit "/") then b
  else match a with
       | [] => b
       | _ => if bool_decide (last a = Some 47%N) then a ++ b
              else a ++ lit "/" ++ b
       end.

Definition BASE_DIR : pystr := lit "/root/Trufflehog".
Definition DOMAINS_FILE : pystr := path_join BASE_DIR (lit "Domains.txt").
Definition PATS_FILE : pystr := path_join BASE_DIR (lit "PAT.txt").
Definition RESULTS_DIR : pystr := path_join BASE_DIR (lit "trufflehog_results").
Definition VERIFIED_DIR : pystr := path_join BASE_DIR (lit "trufflehog_verified").
Definition COMPLETED_FILE : pystr :=
  path_join BASE_DIR (lit "trufflehog_completed.txt").

Definition MAX_RETRIES_PER_DOMAIN : Z := 3.
Definition PAT_COOLDOWN : Z := 300.
Definition RUN_DURATION : Z := 6 * 60 * 60.
Definition BREAK_DURATION : Z := 60 * 60.

(** ** The scanner object and the world around it *)

Record GitHubScanner : Type := mkScanner {
  pats : list pystr;
  completed_domains : gset pystr;
  rate_limited_pats : gmap pystr Z;
  current_pat_index : nat
}.

(** The object as [__init__] receives it. *)
Definition blank : GitHubScanner := mkScanner [] ∅ ∅ 0.

(** Files hold text.  The clock is read by [time.time()] and
    [datetime.now()], its readings taken as whole seconds; it moves when the
    process sleeps and while the engine runs.  [runs] counts the engine runs
    made so far. *)
Record World : Type := mkWorld {
  self : GitHubScanner;
  fs : gmap pystr pystr;
  clock : Z;
  runs : nat
}.

Definition set_self (s : GitHubScanner) (w : World) : World :=
  mkWorld s (fs w) (clock w) (runs w).
Definition set_fs (f : gmap pystr pystr) (w : World) : World :=
  mkWorld (self w) f (clock w) (runs w).
Definition set_clock (t : Z) (w : World) : World :=
  mkWorld (self w) (fs w) t (runs w).
Definition set_runs (n : nat) (w : World) : World :=
  mkWorld (self w) (fs w) (clock w) n.

Definition set_pats (l : list pystr) (s : GitHubScanner) : GitHubScanner :=
  mkScanner l (completed_domains s) (rate_limited_pats s) (current_pat_index s).
Definition set_completed_domains (c : gset pystr) (s : GitHubScanner) : GitHubScanner :=
  mkScanner (pats s) c (rate_limited_pats s) (current_pat_index s).
Definition set_rate_limited_pats (m : gmap pystr Z) (s : GitHubScanner) : GitHubScanner :=
  mkScanner (pats s) (completed_domains s) m (current_pat_index s).
Definition set_current_pat_index (i : nat) (s : GitHubScanner) : GitHubScanner :=
  mkScanner (pats s) (completed_domains s) (rate_limited_pats s) i.

(** What the outside observes. *)
Inductive event : Type :=
| EvRun (domain pat : pystr)              (* the engine is started *)
| EvDump (path : pystr) (doc : list json) (* json.dump into a file opened 'w' *)
| EvAppend (path : pystr) (text : pystr)  (* write into a file opened 'a' *)
| EvPost (text : pystr)                   (* POST to the sendMessage endpoint *)
| EvSleep (seconds : Z).

(** How [subprocess.run(..., check=True, timeout=3600)] ends. *)
Inductive proc_result : Type :=
| Exit0 (stdout : pystr)
| CalledProcessError (stderr : pystr)
| TimeoutExpired.

(** ** The monad of the methods: state, events, exceptions, fuel *)

Inductive outcome (A : Type) : Type :=
| Ret (a : A)
| Raise (e : exn)
| OutOfFuel.
Arguments Ret {A} a.
Arguments Raise {A} e.
Arguments OutOfFuel {A}.

Record res (A : Type) : Type := Res {
  out : outcome A;
  world : World;
  events : list event
}.
Arguments Res {A} out world events.
Arguments out {A} r.
Arguments world {A} r.
Arguments events {A} r.

Definition M (A : Type) : Type := World → res A.

Definition ret {A} (a : A) : M A := λ w, Res (Ret a) w [].

Definition bind {A B} (m : M A) (k : A → M B) : M B := λ w,
  let r := m w in
  match out r with
  | Ret a =>
      let r' := k a (world r) in
      Res (out r') (world r') (events r ++ events r')
  | Raise e => Res (Raise e) (world r) (events r)
  | OutOfFuel => Res OutOfFuel (world r) (events r)
  end.

#[global] Instance M_mret : MRet M := @ret.
#[global] Instance M_mbind : MBind M := λ A B k m, bind m k.

Definition raise {A} (e : exn) : M A := λ w, Res (Raise e) w [].
Definition out_of_fuel {A} : M A := λ w, Res OutOfFuel w [].
Definition emit (e : event) : M unit := λ w, Res (Ret tt) w [e].
Definition gets {A} (f : World → A) : M A := λ w, Res (Ret (f w)) w [].
Definition modify (f : World → World) : M unit := λ w, Res (Ret tt) (f w) [].
Definition modify_self (f : GitHubScanner → GitHubScanner) : M unit :=
  modify (λ w, set_self (f (self w)) w).
Definition lift_pyres {A} (r : pyres A) : M A :=
  match r with
  | Ok a => ret a
  | Err e => raise e
  end.

(** [time.time()], [datetime.now()] *)
Definition time_time : M Z := gets clock.

(** [time.sleep(seconds)] *)
Definition sleep (seconds : Z) : M unit :=
  _ ← emit (EvSleep seconds);
  modify (λ w, set_clock (clock w + seconds) w).

(** [os.path.exists(path)] *)
Definition path_exists (path : pystr) : M bool :=
  gets (λ w, bool_decide (is_Some (fs w !! path))).

(** [open(path, 'r')] and reading the whole file. *)
Definition read_text (path : pystr) : M pystr :=
  content ← gets (λ w, fs w !! path);
  match content with
  | Some text => mret text
  | None =>
      raise (Exn FileNotFoundError
               (lit "[Errno 2] No such file or directory: '" ++ path ++ lit "'"))
  end.

(** [open(path, 'a')] and one [write]. *)
Definition append_text (path text : pystr) : M unit :=
  _ ← emit (EvAppend path text);
  modify (λ w, set_fs (<[path := default [] (fs w !! path) ++ text]> (fs w)) w).

(** ** Sample data

    A credential pool, three findings, a line parser that knows them, and
    engines with a fixed behaviour; the concrete instances of the properties
    below are taken on these. *)

Definition sample_finding (verified : json) (github : list (pystr * json)) : json :=
  JObj [(lit "DetectorName", JStr (lit "AWS"));
        (lit "Verified", verified);
        (lit "SourceMetadata",
         JObj [(lit "Data", JObj [(lit "Github", JObj github)])])].

(** Verified, with a permalink. *)
Definition sample_verified : json :=
  sample_finding (JBool true)
    [(lit "file", JStr (lit "a.py")); (lit "link", JStr (lit "http://x"))].

(** Not verified, with a permalink. *)
Definition sample_unverified : json :=
  sample_finding (JBool false)
    [(lit "file", JStr (lit "b.py")); (lit "link", JStr (lit "http://y"))].

(** Verified, without a permalink. *)
Definition sample_nolink : json :=
  sample_finding (JBool true) [(lit "file", JStr (lit "c.py"))].

(** Verified, with a permalink and a file path of [n] characters. *)
Definition sample_long (n : nat) : json :=
  sample_finding (JBool true)
    [(lit "file", JStr (repeat 97%N n)); (lit "link", JStr (lit "http://z"))].

Definition sample_loads (line : pystr) : option json :=
  if str_eqb line (lit "V") then Some sample_verified
  else if str_eqb line (lit "U") then Some sample_unverified
  else if str_eqb line (lit "L") then Some sample_nolink
  else if str_eqb line (lit "3") then Some (JInt 3)
  else None.

Definition sample_dump (doc : list json) : pystr := lit "[...]".
Definition sample_str (v : json) : pystr := lit "?".
Definition sample_strftime (t : Z) : pystr := lit "00:00".
Definition sample_seconds (n : nat) : N := 7%N.

(** One malformed line, a verified finding, an unverified one, a number, and a
    verified finding without permalink. *)
Definition sample_output : pystr :=
  lit "{oops" ++ [10%N] ++ lit "V" ++ [10%N] ++ lit "U" ++ [10%N] ++ lit "3"
  ++ [10%N] ++ lit "L" ++ [10%N].

Definition engine_succeeds (n : nat) (domain pat : pystr) : proc_result :=
  Exit0 sample_output.
Definition engine_rate_limited (n : nat) (domain pat : pystr) : proc_result :=
  CalledProcessError (lit "error: 403 Forbidden").

Definition sample_pool : GitHubScanner :=
  mkScanner [lit "tok1"; lit "tok2"; lit "tok3"] ∅ ∅ 1.

(** Every credential of the pool cooling until 2000. *)
Definition sample_pool_cooling : GitHubScanner :=
  mkScanner [lit "tok1"; lit "tok2"; lit "tok3"] ∅
    (<[lit "tok1" := 2000]> (<[lit "tok2" := 2000]> {[lit "tok3" := 2000]})) 1.

Definition sample_world : World :=
  mkWorld sample_pool
    {[PATS_FILE := lit "tok1" ++ [10%N] ++ lit "tok2" ++ [10%N] ++ lit "tok3" ++ [10%N];
      DOMAINS_FILE := lit "acme" ++ [10%N]]}
    1000 0.




(** The world with [acme] completed, in the set and in the ledger. *)
Definition sample_world_completed : World :=
  mkWorld (mkScanner [lit "tok1"] {[lit "acme"]} ∅ 0)
    {[PATS_FILE := lit "tok1" ++ [10%N];
      DOMAINS_FILE := lit "acme" ++ [10%N];
      COMPLETED_FILE := lit "acme" ++ [10%N]]}
    1000 0.

(** A finding with a true flag whose source-location descriptor is a
    string, a parser that knows it, and an engine that reports it. *)
Definition sample_unreadable : json :=
  JObj [(lit "Verified", JBool true); (lit "SourceMetadata", JStr (lit "n/a"))].

Definition sample_loads_unreadable (line : pystr) : option json :=
  if str_eqb line (lit "B") then Some sample_unreadable else None.

Definition engine_reports_unreadable (n : nat) (domain pat : pystr) : proc_result :=
  Exit0 (lit "B" ++ [10%N]).

(** The files at startup: a credential and the target [acme]. *)
Definition sample_world_startup : World :=
  mkWorld blank
    {[PATS_FILE := lit "tok1" ++ [10%N]; DOMAINS_FILE := lit "acme" ++ [10%N]]}
    1000 0.

Section Scanner.

(** ** What the program takes from outside the repository

    The JSON codec and the formatting routines of the Python library, and
    the detection engine: its [n]-th run, started for [domain] with [pat],
    ends as [engine n domain pat] after [engine_seconds n] seconds. *)
Variable json_loads : pystr → option json.   (* [None]: json.JSONDecodeError *)
Variable json_dump : list json → pystr.      (* json.dump(_, f, indent=2) *)
Variable str_of_value : json → pystr.        (* str(v) of a value that is no str *)
Variable strftime_HM : Z → pystr.            (* strftime('%H:%M') *)
Variable engine : nat → pystr → pystr → proc_result.
Variable engine_seconds : nat → N.

(** [f"{v}"] *)
Definition py_str (v : json) : pystr :=
  match v with
  | JStr s => s
  | _ => str_of_value v
  end.

(** [open(path, 'w')] and [json.dump(doc, f, indent=2)] *)
Definition write_json (path : pystr) (doc : list json) : M unit :=
  _ ← emit (EvDump path doc);
  modify (λ w, set_fs (<[path := json_dump doc]> (fs w)) w).

(** ** Notifier *)

Definition _send_telegram_message (text : pystr) : M unit :=
  (* a failed delivery is logged and changes nothing *)
  emit (EvPost text).

Definition alert_header (domain : pystr) : pystr :=
  [128680%N] ++ lit " *Verified secrets found in " ++ domain ++ lit "*:" ++ [10%N].

Definition continued_header (domain : pystr) : pystr :=
  lit "*Continued findings for " ++ domain ++ lit ":*" ++ [10%N].

Definition alert_block (detector_name file_path commit_url : json) : pystr :=
  [10%N; 128269%N] ++ lit " *" ++ py_str detector_name ++ lit "*" ++ [10%N]
  ++ [128196%N] ++ lit " `" ++ py_str file_path ++ lit "`" ++ [10%N]
  ++ [128279%N] ++ lit " [View Commit](" ++ py_str commit_url ++ lit ")" ++ [10%N].

Arguments alert_header : simpl never.
Arguments continued_header : simpl never.
Arguments alert_block : simpl never.

(** The reads at the head of the [try] block, for a [secret] that is a dict. *)
Definition alert_fields (secret : json) : pyres (json * json * json) :=
  detector_name ← py_get secret (lit "DetectorName") (JStr (lit "Unknown Secret"));
  gh_data ← github_data secret;
  file_path ← py_get gh_data (lit "file") (JStr (lit "Unknown file"));
  commit_url ← py_get gh_data (lit "link") (JStr []);
  mret (detector_name, file_path, commit_url).

(** The [for secret in verified_secrets] loop; returns [(message, count)]. *)
Fixpoint alert_loop (domain : pystr) (verified_secrets : list json)
    (message : pystr) (count : Z) : M (pystr * Z) :=
  match verified_secrets with
  | [] => mret (message, count)
  | secret :: rest =>
      if negb (isinstance_dict secret) then alert_loop domain rest message count
      else
        match alert_fields secret with
        | Err _ => alert_loop domain rest message count
        | Ok (detector_name, file_path, commit_url) =>
            if negb (truthy commit_url) then alert_loop domain rest message count
            else
              let count := count + 1 in
              let message := message ++ alert_block detector_name file_path commit_url in
              if len message >? 3000 then
                _ ← _send_telegram_message message;
                alert_loop domain rest (continued_header domain) 0
              else alert_loop domain rest message count
        end
  end.

Definition _send_telegram_alert (domain : pystr) (verified_secrets : list json) : M unit :=
  match verified_secrets with
  | [] => mret tt
  | _ =>
      '(message, count) ← alert_loop domain verified_secrets (alert_header domain) 0;
      if count >? 0 then _send_telegram_message message else mret tt
  end.

(** ** Credential pool *)

Definition _load_pats : M (list pystr) :=
  content ← read_text PATS_FILE;
  let pats := stripped_lines content in
  match pats with
  | [] => raise (Exn ValueError (lit "No PATs found."))
  | _ => mret pats
  end.

(** The [for _ in range(len(self.pats))] loop with [n] rounds left. *)
Fixpoint pat_loop (n : nat) (now : Z) (s : GitHubScanner)
    : pyres (option pystr) * GitHubScanner :=
  match n with
  | O => (Ok None, s)
  | S n' =>
      match pats s !! current_pat_index s with
      | None => (Err (Exn IndexError (lit "list index out of range")), s)
      | Some pat =>
          let s := set_current_pat_index
                     ((current_pat_index s + 1) `mod` length (pats s))%nat s in
          match rate_limited_pats s !! pat with
          | Some expiry =>
              if expiry >? now then pat_loop n' now s
              else (Ok (Some pat),
                    set_rate_limited_pats (delete pat (rate_limited_pats s)) s)
          | None =>
              (Ok (Some pat),
               set_rate_limited_pats (delete pat (rate_limited_pats s)) s)
          end
      end
  end.

Definition get_available_pat (now : Z) (s : GitHubScanner)
    : pyres (option pystr) * GitHubScanner :=
  pat_loop (length (pats s)) now s.

Definition _get_available_pat : M (option pystr) :=
  now ← time_time;
  s ← gets self;
  let '(r, s') := get_available_pat now s in
  _ ← modify (set_self s');
  lift_pyres r.

(** ** Scan invoker *)

Definition subprocess_run (domain pat : pystr) : M proc_result :=
  _ ← emit (EvRun domain pat);
  n ← gets runs;
  _ ← modify (λ w, set_clock (clock w + Z.of_N (engine_seconds n)) (set_runs (S n) w));
  mret (engine n domain pat).

Definition _run_trufflehog (domain pat : pystr) : M (bool * pystr) :=
  result ← subprocess_run domain pat;
  match result with
  | Exit0 stdout => mret (true, stdout)
  | CalledProcessError stderr =>
      if str_contains (lit "403") stderr then
        now ← time_time;
        _ ← modify_self (λ s,
              set_rate_limited_pats
                (<[pat := now + PAT_COOLDOWN]> (rate_limited_pats s)) s);
        mret (false, lit "rate_limit")
      else mret (false, stderr)
  | TimeoutExpired => mret (false, lit "timeout")
  end.

(** ** Finding processor *)

(** The [for line in output.splitlines()] loop. *)
Fixpoint parse_lines (lines : list pystr) (findings : list json)
    (valid_entries invalid_entries : Z) : list json * Z * Z :=
  match lines with
  | [] => (findings, valid_entries, invalid_entries)
  | line :: rest =>
      match json_loads line with
      | Some data =>
          if isinstance_dict data
          then parse_lines rest (findings ++ [data]) (valid_entries + 1) invalid_entries
          else parse_lines rest findings valid_entries (invalid_entries + 1)
      | None => parse_lines rest findings valid_entries (invalid_entries + 1)
      end
  end.

(** The [for entry in findings] loop that fills [verified]. *)
Fixpoint verified_loop (findings : list json) (verified : list json)
    : pyres (list json) :=
  match findings with
  | [] => Ok verified
  | entry :: rest =>
      if negb (isinstance_dict entry) then verified_loop rest verified
      else
        flag ← py_get entry (lit "Verified") JNull;
        if negb (truthy flag) then verified_loop rest verified
        else
          gh_data ← github_data entry;
          if negb (isinstance_dict gh_data) then verified_loop rest verified
          else verified_loop rest (verified ++ [entry])
  end.

(** ** Domain orchestrator *)

Definition _load_completed_domains : M (gset pystr) :=
  ex ← path_exists COMPLETED_FILE;
  if negb ex then mret ∅
  else
    content ← read_text COMPLETED_FILE;
    mret (list_to_set (stripped_lines content)).

Definition _mark_domain_completed (domain : pystr) : M unit :=
  _ ← modify_self (λ s,
        set_completed_domains ({[domain]} ∪ completed_domains s) s);
  append_text COMPLETED_FILE (domain ++ [10%N]).

Definition output_file (domain : pystr) : pystr :=
  path_join RESULTS_DIR (domain ++ lit ".json").
Definition verified_file (domain : pystr) : pystr :=
  path_join VERIFIED_DIR (domain ++ lit ".verified.json").

(** The [if success:] branch of [scan_domain]; [findings] is still [[]]
    when it is entered. *)
Definition scan_success (domain output : pystr) : M bool :=
  let '(findings, valid_entries, invalid_entries) :=
    parse_lines (splitlines output) [] 0 0 in
  _ ← write_json (output_file domain) findings;
  verified ← lift_pyres (verified_loop findings []);
  _ ← match verified with
      | [] => mret tt
      | _ =>
          _ ← write_json (verified_file domain) verified;
          _send_telegram_alert domain verified
      end;
  _ ← _mark_domain_completed domain;
  mret true.

(** The [while attempts < MAX_RETRIES_PER_DOMAIN] loop; [fuel] bounds the
    number of rounds. *)
Fixpoint scan_loop (fuel : nat) (domain : pystr) (attempts : Z) : M bool :=
  match fuel with
  | O => out_of_fuel
  | S fuel' =>
      if attempts <? MAX_RETRIES_PER_DOMAIN then
        pat ← _get_available_pat;
        match pat with
        | None | Some [] =>
            _ ← sleep PAT_COOLDOWN;
            scan_loop fuel' domain attempts
        | Some pat =>
            '(success, output) ← _run_trufflehog domain pat;
            if success : bool then scan_success domain output
            else if str_eqb output (lit "rate_limit") then
              _ ← sleep 2;
              scan_loop fuel' domain (attempts + 1)
            else mret false
        end
      else mret false
  end.

Definition scan_domain (fuel : nat) (domain : pystr) : M bool :=
  scan_loop fuel domain 0.

(** ** Cycle scheduler *)

Fixpoint run_loop (fuel : nat) (domains : list pystr) : M unit :=
  match domains with
  | [] => mret tt
  | domain :: rest =>
      completed ← gets (λ w, completed_domains (self w));
      if bool_decide (domain ∈ completed) then run_loop fuel rest
      else
        _ ← scan_domain fuel domain;
        _ ← sleep 5;
        run_loop fuel rest
  end.

Definition run (fuel : nat) : M unit :=
  ex ← path_exists DOMAINS_FILE;
  if negb ex then raise (Exn FileNotFoundError (DOMAINS_FILE ++ lit " not found"))
  else
    content ← read_text DOMAINS_FILE;
    run_loop fuel (stripped_lines content).

(** [cycles] rounds of the [while True] loop. *)
Fixpoint run_continuously (cycles fuel : nat) : M unit :=
  match cycles with
  | O => out_of_fuel
  | S cycles' =>
      start_time ← time_time;
      let end_time := start_time + RUN_DURATION in
      _ ← _send_telegram_message
            ([128268%N] ++ lit " Trufflehog scanner started new cycle");
      _ ← run fuel;
      now ← time_time;
      _ ← (if now <? end_time then
             now ← time_time;
             sleep (end_time - now)
           else mret tt);
      now ← time_time;
      _ ← _send_telegram_message
            ([128721%N] ++ lit " Scanner pausing for 60 minute break. Resuming at "
             ++ strftime_HM (now + BREAK_DURATION));
      _ ← sleep BREAK_DURATION;
      run_continuously cycles' fuel
  end.

Definition __init__ : M unit :=
  pats ← _load_pats;
  _ ← modify_self (set_pats pats);
  completed ← _load_completed_domains;
  _ ← modify_self (set_completed_domains completed);
  _ ← modify_self (set_rate_limited_pats ∅);
  modify_self (set_current_pat_index 0).

(** The body of the [try] of the [__main__] block. *)
Definition main_try (cycles fuel : nat) : M unit :=
  _ ← __init__;
  run_continuously cycles fuel.

(** The [__main__] block: the result directories are created, the scanner is
    built and run; any exception is answered by one crash message, after
    which the process ends. *)
Definition main (cycles fuel : nat) : M unit := λ w,
  let r := main_try cycles fuel w in
  match out r with
  | Raise e =>
      let r' := emit (EvPost ([10060%N] ++ lit " Scanner crashed: " ++ str_of_exn e))
                  (world r) in
      Res (Ret tt) (world r') (events r ++ events r')
  | _ => r
  end.

(** ** Vocabulary of the statements *)

(** A line that parses to a field-mapping record. *)
Definition valid_record (line : pystr) : option json :=
  match json_loads line with
  | Some (JObj o) => Some (JObj o)
  | _ => None
  end.


(** The list read in circular order from index [i] on. *)
Definition rotation {A} (i : nat) (l : list A) : list A := drop i l ++ take i l.

(** The credential [pat] is cooling down at [now]. *)
Definition cooling (s : GitHubScanner) (now : Z) (pat : pystr) : Prop :=
  ∃ expiry, rate_limited_pats s !! pat = Some expiry ∧ now < expiry.

(** The block a secret contributes to the alert, if it contributes one. *)
Definition secret_block (secret : json) : option pystr :=
  if isinstance_dict secret then
    match alert_fields secret with
    | Ok (detector_name, file_path, commit_url) =>
        if truthy commit_url
        then Some (alert_block detector_name file_path commit_url)
        else None
    | Err _ => None
    end
  else None.

(** The messages made of the groups of blocks [chunks]: the first under
    the header [h], the others under the continued header. *)
Definition render_chunks (domain h : pystr) (chunks : list (list pystr)) : list pystr :=
  match chunks with
  | [] => []
  | c :: cs =>
      (h ++ concat c) :: map (λ c, continued_header domain ++ concat c) cs
  end.

(** Under the header [h], no non-empty prefix of the blocks [bs] makes a
    message longer than the ceiling. *)
Definition fits (h : pystr) (bs : list pystr) : Prop :=
  ∀ k, (0 < k ≤ length bs)%nat → len (h ++ concat (take k bs)) ≤ 3000.

(** The group of blocks [c] was sent because its last block took the message
    over the ceiling. *)
Definition flushed (h : pystr) (c : list pystr) : Prop :=
  ∃ init b, c = init ++ [b] ∧ fits h init ∧ 3000 < len (h ++ concat c).

(** The header of the [i]-th message of an alert. *)
Definition header_at (domain : pystr) (i : nat) : pystr :=
  match i with
  | O => alert_header domain
  | S _ => continued_header domain
  end.

(** The notifier as the specification words it: the ceiling is tested
    before the block is appended, and the block that would cross it opens
    the next message. *)
Fixpoint spec_alert_loop (domain : pystr) (blocks : list pystr) (message : pystr)
    : list pystr :=
  match blocks with
  | [] => [message]
  | b :: rest =>
      if len (message ++ b) >? 3000
      then message :: spec_alert_loop domain rest (continued_header domain ++ b)
      else spec_alert_loop domain rest (message ++ b)
  end.

Definition spec_alert (domain : pystr) (verified_secrets : list json) : list pystr :=
  match omap secret_block verified_secrets with
  | [] => []
  | blocks => spec_alert_loop domain blocks (alert_header domain)
  end.

(** The worlds the success branch goes through. *)
Definition write_raw (domain : pystr) (findings : list json) (w : World) : World :=
  set_fs (<[output_file domain := json_dump findings]> (fs w)) w.

Definition write_verified (domain : pystr) (verified : list json) (w : World) : World :=
  match verified with
  | [] => w
  | _ => set_fs (<[verified_file domain := json_dump verified]> (fs w)) w
  end.

Definition mark_completed (domain : pystr) (w : World) : World :=
  set_fs (<[COMPLETED_FILE :=
             default [] (fs w !! COMPLETED_FILE) ++ (domain ++ [10%N])]> (fs w))
    (set_self (set_completed_domains ({[domain]} ∪ completed_domains (self w))
                 (self w)) w).

(** What the success branch emits for the verified findings. *)
Definition verified_events (domain : pystr) (verified : list json) (w : World)
    : list event :=
  match verified with
  | [] => []
  | _ => EvDump (verified_file domain) verified
         :: events (_send_telegram_alert domain verified w)
  end.

(** The result [r], reached after the events [evs]. *)
Definition prepend {A} (evs : list event) (r : res A) : res A :=
  Res (out r) (world r) (evs ++ events r).

(** The scanner once the cursor has moved on by one. *)
Definition advance (s : GitHubScanner) : GitHubScanner :=
  set_current_pat_index ((current_pat_index s + 1) `mod` length (pats s))%nat s.

(** The world once the engine's [n]-th run has ended. *)
Definition after_run (w : World) : World :=
  set_clock (clock w + Z.of_N (engine_seconds (runs w))) (set_runs (S (runs w)) w).

(** The world once [pat] has been given a cool-down from now. *)
Definition mark_rate_limited (pat : pystr) (w : World) : World :=
  set_self (set_rate_limited_pats
              (<[pat := clock w + PAT_COOLDOWN]> (rate_limited_pats (self w)))
              (self w)) w.

(** The events of the retry loop before an engine run succeeds: engine
    starts for [domain], and sleeps. *)
Definition quiet (domain : pystr) (ev : event) : Prop :=
  match ev with
  | EvRun d _ => d = domain
  | EvSleep _ => True
  | _ => False
  end.

(** [w1] has the files, the completed set and the credential list of [w]. *)
Definition same_store (w w1 : World) : Prop :=
  fs w1 = fs w
  ∧ completed_domains (self w1) = completed_domains (self w)
  ∧ pats (self w1) = pats (self w).

(** How a scan of [domain] started in [w] can end: without success, in a
    world with the store of [w] and after quiet events only; or through the
    success branch, entered after quiet events with the output of an engine
    run that exited with zero. *)
Definition scan_shape (domain : pystr) (w : World) (r : res bool) : Prop :=
  ∃ pre w1,
    Forall (quiet domain) pre ∧ same_store w w1
    ∧ ((r = Res (Ret false) w1 pre ∨ r = Res OutOfFuel w1 pre
        ∨ ∃ e, r = Res (Raise e) w1 pre)
       ∨ ∃ stdout pat n,
           engine n domain pat = Exit0 stdout
           ∧ r = prepend pre (scan_success domain stdout w1)).

(** The verified flag of a finding ([None] when it has none). *)
Definition verified_flag (f : json) : json :=
  match f with
  | JObj o => dict_get o (lit "Verified") JNull
  | _ => JNull
  end.

(** The permalink in the source-location descriptor of a finding (the empty
    string when there is none). *)
Definition permalink (f : json) : json :=
  match github_data f with
  | Ok (JObj o) => dict_get o (lit "link") (JStr [])
  | _ => JStr []
  end.

(** The pool as the program keeps it: the cursor is inside the list, no
    credential is the empty string, and no cool-down ends later than one
    cool-down from now. *)
Definition pool_ready (w : World) : Prop :=
  (current_pat_index (self w) < length (pats (self w)))%nat
  ∧ (([] : pystr) ∉ pats (self w))
  ∧ ∀ pat expiry, rate_limited_pats (self w) !! pat = Some expiry →
      expiry ≤ clock w + PAT_COOLDOWN.

(** The engine starts among the events: target and credential of each. *)
Definition engine_start (ev : event) : option (pystr * pystr) :=
  match ev with
  | EvRun d p => Some (d, p)
  | _ => None
  end.

Definition engine_starts (evs : list event) : list (pystr * pystr) :=
  omap engine_start evs.

(** The engine is never started for [d] among the events. *)
Definition no_run (d : pystr) (evs : list event) : Prop :=
  ∀ pat, EvRun d pat ∉ evs.

(** The completed set as [__init__] reads it from the ledger. *)
Definition ledger_set (w : World) : gset pystr :=
  match fs w !! COMPLETED_FILE with
  | None => ∅
  | Some content => list_to_set (stripped_lines content)
  end.

(** The message of the [except] clause of the [__main__] block. *)
Definition crash_post (e : exn) : event :=
  EvPost ([10060%N] ++ lit " Scanner crashed: " ++ str_of_exn e).

(** The message that opens a cycle. *)
Definition started_post : event :=
  EvPost ([128268%N] ++ lit " Trufflehog scanner started new cycle").






(** The engine ended with a non-zero exit and "403" in its diagnostics. *)
Definition reports_403 (p : proc_result) : bool :=
  match p with
  | CalledProcessError stderr => str_contains (lit "403") stderr
  | _ => false
  end.

(** ** Vocabulary of the further properties *)

(** The finding goes into [verified]: a dict with a true flag whose
    source-location chain reads through to a dict. *)
Definition passes_filter (f : json) : bool :=
  isinstance_dict f && truthy (verified_flag f)
  && match github_data f with
     | Ok gh_data => isinstance_dict gh_data
     | Err _ => false
     end.

(** The finding stops the filter loop: a dict with a true flag whose
    source-location chain cannot be read. *)
Definition breaks_filter (f : json) : bool :=
  isinstance_dict f && truthy (verified_flag f)
  && match github_data f with
     | Ok _ => false
     | Err _ => true
     end.

(** The credential can be handed out at [now]: it has no cool-down, or its
    cool-down has ended. *)
Definition usable (s : GitHubScanner) (now : Z) (pat : pystr) : bool :=
  match rate_limited_pats s !! pat with
  | Some expiry => negb (expiry >? now)
  | None => true
  end.

(** The first character, if there is one, is no white space. *)
Definition unspaced_head (x : pystr) : Prop :=
  match x with
  | [] => True
  | c :: _ => isspace c = false
  end.

(** A name as the list files give it: not empty, without white space at
    either end, and without line feed or carriage return inside. *)
Definition clean (d : pystr) : Prop :=
  d ≠ [] ∧ strip d = d ∧ Forall (λ c, c ≠ 10%N ∧ c ≠ 13%N) d.

(** The text of a ledger to which the targets [ds] were appended in turn. *)
Definition ledger_text (ds : list pystr) : pystr :=
  concat (map (λ d, d ++ [10%N]) ds).

(** The ledger file is missing or holds the lines of clean names, as the
    program writes them. *)
Definition ledger_ok (w : World) : Prop :=
  ∃ ds, Forall clean ds ∧ default [] (fs w !! COMPLETED_FILE) = ledger_text ds.



(** * Properties *)

(** ** The monad *)

Lemma mbind_unfold {A B} (m : M A) (k : A → M B) (w : World) :
  (m ≫= k) w = bind m k w.
Proof. reflexivity. Qed.


Lemma res_eta {A} (r : res A) : r = Res (out r) (world r) (events r).
Proof. by destruct r. Qed.

Lemma bind_ret_eval {A B} (m : M A) (k : A → M B) w a w' evs :
  m w = Res (Ret a) w' evs →
  (m ≫= k) w = Res (out (k a w')) (world (k a w')) (evs ++ events (k a w')).
Proof. intros H. rewrite mbind_unfold. unfold bind. by rewrite H. Qed.

Lemma bind_raise_eval {A B} (m : M A) (k : A → M B) w e w' evs :
  m w = Res (Raise e) w' evs → (m ≫= k) w = Res (Raise e) w' evs.
Proof. intros H. rewrite mbind_unfold. unfold bind. by rewrite H. Qed.

Lemma sleep_eval seconds w :
  sleep seconds w = Res (Ret tt) (set_clock (clock w + seconds) w) [EvSleep seconds].
Proof. reflexivity. Qed.

Lemma read_text_eval path w :
  read_text path w =
    match fs w !! path with
    | Some text => Res (Ret text) w []
    | None =>
        Res (Raise (Exn FileNotFoundError
                      (lit "[Errno 2] No such file or directory: '" ++ path ++ lit "'")))
            w []
    end.
Proof.
  unfold read_text. rewrite mbind_unfold. unfold bind, gets. cbn [out world events].
  by destruct (fs w !! path).
Qed.

(** ** Finding processor: parsing *)

Lemma omap_length_le {A B} (f : A → option B) (l : list A) :
  (length (omap f l) ≤ length l)%nat.
Proof.
  induction l as [|a l IH]; [done|].
  change (omap f (a :: l)) with
    (match f a with Some b => b :: omap f l | None => omap f l end).
  destruct (f a); simpl; lia.
Qed.

(** Equality of tuples, component by component. *)
Ltac pair_eq :=
  repeat (apply (f_equal2 pair)); try reflexivity; try lia.

Lemma parse_lines_cons line rest findings valid invalid :
  parse_lines (line :: rest) findings valid invalid =
    match valid_record line with
    | Some data => parse_lines rest (findings ++ [data]) (valid + 1) invalid
    | None => parse_lines rest findings valid (invalid + 1)
    end.
Proof.
  unfold valid_record; simpl.
  destruct (json_loads line) as [[]|]; reflexivity.
Qed.

Lemma omap_cons {A B} (f : A → option B) (a : A) (l : list A) :
  omap f (a :: l) =
    match f a with Some b => b :: omap f l | None => omap f l end.
Proof. reflexivity. Qed.

Lemma parse_lines_acc lines findings valid invalid :
  parse_lines lines findings valid invalid =
    (findings ++ omap valid_record lines,
     valid + Z.of_nat (length (omap valid_record lines)),
     invalid + Z.of_nat (length lines - length (omap valid_record lines))).
Proof.
  revert findings valid invalid.
  induction lines as [|line rest IH]; intros findings valid invalid.
  - simpl. rewrite app_nil_r. pair_eq.
  - pose proof (omap_length_le valid_record rest) as Hle.
    rewrite parse_lines_cons, omap_cons.
    destruct (valid_record line) as [data|]; rewrite IH.
    + rewrite <- app_assoc. simpl length. pair_eq.
    + simpl length. pair_eq.
Qed.

(** ** Credential pool *)

Lemma pat_loop_free n now s pat :
  pats s !! current_pat_index s = Some pat →
  ¬ cooling s now pat →
  pat_loop (S n) now s =
    (Ok (Some pat),
     set_rate_limited_pats (delete pat (rate_limited_pats s)) (advance s)).
Proof.
  intros Hpat Hfree. simpl. rewrite Hpat. simpl.
  destruct (rate_limited_pats s !! pat) as [expiry|] eqn:Hrl; [|done].
  rewrite Z.gtb_ltb. destruct (Z.ltb_spec now expiry) as [Hlt|Hge]; [|done].
  exfalso. apply Hfree. by exists expiry.
Qed.

Lemma pat_loop_skip n now s pat :
  pats s !! current_pat_index s = Some pat →
  cooling s now pat →
  pat_loop (S n) now s = pat_loop n now (advance s).
Proof.
  intros Hpat (expiry & Hrl & Hlt). simpl. rewrite Hpat. simpl. rewrite Hrl.
  rewrite Z.gtb_ltb. destruct (Z.ltb_spec now expiry); [done | lia].
Qed.

(** A cooling credential is never the one returned. *)
Lemma pat_loop_excludes n now s pat :
  cooling s now pat → (pat_loop n now s).1 ≠ Ok (Some pat).
Proof.
  revert s. induction n as [|n IH]; intros s Hcool; [done|].
  simpl. destruct (pats s !! current_pat_index s) as [p|] eqn:Hp; [|done].
  simpl. fold (advance s).
  destruct Hcool as (expiry & Hrl & Hlt).
  destruct (rate_limited_pats s !! p) as [e|] eqn:Hrlp.
  - rewrite Z.gtb_ltb. destruct (Z.ltb_spec now e) as [He|He].
    + apply IH. by exists expiry.
    + simpl. intros [= ->]. rewrite Hrl in Hrlp. injection Hrlp as ->. lia.
  - simpl. intros [= ->]. congruence.
Qed.

Lemma set_current_pat_index_id s :
  set_current_pat_index (current_pat_index s) s = s.
Proof. by destruct s. Qed.

(** When every credential is cooling, the loop makes its [n] rounds and
    gives up; only the cursor has moved. *)
Lemma pat_loop_all_cooling n now s :
  (current_pat_index s < length (pats s))%nat →
  (∀ pat, pat ∈ pats s → cooling s now pat) →
  pat_loop n now s =
    (Ok None,
     set_current_pat_index
       ((current_pat_index s + n) `mod` length (pats s))%nat s).
Proof.
  revert s. induction n as [|n IH]; intros s Hidx Hall.
  - simpl. rewrite Nat.add_0_r, Nat.mod_small by done.
    by rewrite set_current_pat_index_id.
  - destruct (lookup_lt_is_Some_2 _ _ Hidx) as [pat Hpat].
    rewrite (pat_loop_skip n now s pat Hpat)
      by (apply Hall; by eapply list_elem_of_lookup_2).
    rewrite IH.
    + unfold advance, set_current_pat_index. simpl. do 2 f_equal.
      rewrite Nat.Div0.add_mod_idemp_l. f_equal. lia.
    + simpl. apply Nat.mod_upper_bound. lia.
    + apply Hall.
Qed.

Lemma rotation_head {A} (i : nat) (l : list A) (a : A) :
  l !! i = Some a → rotation i l = a :: (drop (S i) l ++ take i l).
Proof. intros H. unfold rotation. by rewrite (drop_S _ _ _ H). Qed.

Lemma rotation_next {A} (i : nat) (l : list A) (a : A) :
  l !! i = Some a →
  rotation ((i + 1) `mod` length l) l = (drop (S i) l ++ take i l) ++ [a].
Proof.
  intros H. pose proof (lookup_lt_Some _ _ _ H) as Hlt. unfold rotation.
  destruct (decide (i + 1 = length l)%nat) as [Heq|Hne].
  - rewrite Heq, Nat.Div0.mod_same. rewrite take_0, app_nil_r, drop_0.
    rewrite (drop_ge l (S i)) by lia. simpl.
    rewrite <- (take_S_r _ _ _ H). rewrite take_ge by lia. done.
  - rewrite Nat.mod_small by lia. replace (i + 1)%nat with (S i) by lia.
    rewrite (take_S_r _ _ _ H). by rewrite app_assoc.
Qed.





(** What a call leaves in place: the list, the completed set, a cursor
    inside the list; it only forgets cool-downs; and what it returns is a
    credential of the list. *)
Lemma pat_loop_wf n now s :
  (current_pat_index s < length (pats s))%nat →
  pats (pat_loop n now s).2 = pats s
  ∧ completed_domains (pat_loop n now s).2 = completed_domains s
  ∧ (current_pat_index (pat_loop n now s).2 < length (pats s))%nat
  ∧ (∀ p e, rate_limited_pats (pat_loop n now s).2 !! p = Some e →
            rate_limited_pats s !! p = Some e)
  ∧ ((pat_loop n now s).1 = Ok None
     ∨ ∃ pat, (pat_loop n now s).1 = Ok (Some pat) ∧ pat ∈ pats s).
Proof.
  revert s. induction n as [|n IH]; intros s Hidx; [simpl; eauto 10|].
  destruct (lookup_lt_is_Some_2 _ _ Hidx) as [pat Hpat].
  assert (Hin : pat ∈ pats s) by (by eapply list_elem_of_lookup_2).
  assert (Hadv : (current_pat_index (advance s) < length (pats (advance s)))%nat).
  { simpl. apply Nat.mod_upper_bound. lia. }
  assert (Hcase : cooling s now pat ∨ ¬ cooling s now pat).
  { unfold cooling. destruct (rate_limited_pats s !! pat) as [e|].
    - destruct (Z.lt_ge_cases now e); [left; eauto|].
      right. intros (e' & [= <-] & Hlt). lia.
    - right. by intros (e' & [=] & _). }
  destruct Hcase as [Hcool|Hfree].
  - rewrite (pat_loop_skip n now s pat Hpat Hcool).
    destruct (IH (advance s) Hadv) as (H1 & H2 & H3 & H4 & H5). done.
  - rewrite (pat_loop_free n now s pat Hpat Hfree). simpl.
    repeat split; [exact Hadv| |eauto].
    intros p e He. by apply lookup_delete_Some in He as [_ He].
Qed.

Lemma get_available_pat_eval w :
  _get_available_pat w =
    match (get_available_pat (clock w) (self w)).1 with
    | Ok pat => Res (Ret pat) (set_self (get_available_pat (clock w) (self w)).2 w) []
    | Err e => Res (Raise e) (set_self (get_available_pat (clock w) (self w)).2 w) []
    end.
Proof.
  unfold _get_available_pat, time_time, gets.
  rewrite !mbind_unfold. unfold bind at 1. simpl.
  destruct (get_available_pat (clock w) (self w)) as [[pat|e] s']; reflexivity.
Qed.

(** ** Scan invoker *)

Lemma run_trufflehog_eval domain pat w :
  _run_trufflehog domain pat w =
    match engine (runs w) domain pat with
    | Exit0 stdout => Res (Ret (true, stdout)) (after_run w) [EvRun domain pat]
    | CalledProcessError stderr =>
        if str_contains (lit "403") stderr
        then Res (Ret (false, lit "rate_limit"))
               (mark_rate_limited pat (after_run w)) [EvRun domain pat]
        else Res (Ret (false, stderr)) (after_run w) [EvRun domain pat]
    | TimeoutExpired => Res (Ret (false, lit "timeout")) (after_run w) [EvRun domain pat]
    end.
Proof.
  unfold _run_trufflehog, subprocess_run.
  rewrite !mbind_unfold. unfold bind at 1. simpl.
  destruct (engine (runs w) domain pat) as [stdout|stderr|]; try reflexivity.
  destruct (str_contains (lit "403") stderr); reflexivity.
Qed.

(** C2 (as amended). One run of the scan invoker emits the engine start and
    leaves the credential list, the completed set, the rotation cursor and
    the files as they were; the cool-down map is left as it was unless the
    engine ended with a non-zero exit and "403" in its diagnostics, in which
    case the invoker itself sets the credential's expiry to the clock
    reading plus the cool-down. *)
Theorem C2_invoker_frame (domain pat : pystr) (w : World) :
  let r := _run_trufflehog domain pat w in
  events r = [EvRun domain pat]
  ∧ pats (self (world r)) = pats (self w)
  ∧ completed_domains (self (world r)) = completed_domains (self w)
  ∧ current_pat_index (self (world r)) = current_pat_index (self w)
  ∧ fs (world r) = fs w
  ∧ rate_limited_pats (self (world r)) =
      if reports_403 (engine (runs w) domain pat)
      then <[pat := clock (world r) + PAT_COOLDOWN]> (rate_limited_pats (self w))
      else rate_limited_pats (self w).
Proof.
  cbv zeta. rewrite run_trufflehog_eval.
  destruct (engine (runs w) domain pat) as [stdout|stderr|]; simpl; try done.
  destruct (str_contains (lit "403") stderr); simpl; done.
Qed.

(** C6. A credential the invoker has just marked is cooling exactly until
    the clock reading of the marking plus 300; a call of the pool made while
    a credential is cooling does not return it; and when every credential is
    cooling the call returns none after one round over the list, leaving the
    pool as it was. *)
Theorem C6_cooldown_exclusion (s : GitHubScanner) (now : Z) :
  (∀ domain pat w stderr,
      engine (runs w) domain pat = CalledProcessError stderr →
      str_contains (lit "403") stderr = true →
      let r := _run_trufflehog domain pat w in
      rate_limited_pats (self (world r)) !! pat = Some (clock (world r) + 300)
      ∧ (cooling (self (world r)) now pat ↔ now < clock (world r) + 300))
  ∧ (∀ pat, cooling s now pat → (get_available_pat now s).1 ≠ Ok (Some pat))
  ∧ ((current_pat_index s < length (pats s))%nat →
     (∀ pat, pat ∈ pats s → cooling s now pat) →
     get_available_pat now s = (Ok None, s)).
Proof.
  split; [|split].
  - intros domain pat w stderr Heng H403. cbv zeta.
    rewrite run_trufflehog_eval, Heng, H403. simpl.
    assert (Hl : (<[pat := clock w + Z.of_N (engine_seconds (runs w)) + PAT_COOLDOWN]>
                   (rate_limited_pats (self w)) : gmap pystr Z) !! pat
                 = Some (clock w + Z.of_N (engine_seconds (runs w)) + 300))
      by apply lookup_insert_eq.
    split; [exact Hl|]. unfold cooling. simpl. rewrite Hl. split.
    + intros (e & [= <-] & Hlt). exact Hlt.
    + intros Hlt. eauto.
  - intros pat Hcool. by apply pat_loop_excludes.
  - intros Hidx Hall. unfold get_available_pat.
    rewrite pat_loop_all_cooling by done.
    rewrite <- (Nat.mul_1_l (length (pats s))) at 1.
    rewrite Nat.Div0.mod_add, Nat.mod_small by done.
    by rewrite set_current_pat_index_id.
Qed.

(** ** Notifier *)

Lemma alert_loop_cons domain secret rest message count w :
  alert_loop domain (secret :: rest) message count w =
    match secret_block secret with
    | None => alert_loop domain rest message count w
    | Some block =>
        if len (message ++ block) >? 3000 then
          let r := alert_loop domain rest (continued_header domain) 0 w in
          Res (out r) (world r) (EvPost (message ++ block) :: events r)
        else alert_loop domain rest (message ++ block) (count + 1) w
    end.
Proof.
  unfold secret_block. simpl.
  destruct (isinstance_dict secret); simpl; [|done].
  destruct (alert_fields secret) as [[[d f] u]|e]; [|done].
  destruct (truthy u); simpl; [|done].
  destruct (len (message ++ alert_block d f u) >? 3000); [|done].
  rewrite mbind_unfold. unfold bind. simpl.
  by destruct (out (alert_loop domain rest (continued_header domain) 0 w)).
Qed.

Lemma render_chunks_continued domain chunks :
  render_chunks domain (continued_header domain) chunks =
    map (λ c, continued_header domain ++ concat c) chunks.
Proof. by destruct chunks. Qed.

Lemma concat_snoc {A} (l : list (list A)) (x : list A) :
  concat (l ++ [x]) = concat l ++ x.
Proof. by rewrite concat_app; simpl; rewrite app_nil_r. Qed.

Lemma fits_nil h : fits h [].
Proof. intros k [Hk1 Hk2]. simpl in Hk2. lia. Qed.

Lemma fits_snoc h cur b :
  fits h cur → len (h ++ concat (cur ++ [b])) ≤ 3000 → fits h (cur ++ [b]).
Proof.
  intros Hfits Hlen k [Hk1 Hk2]. rewrite length_app in Hk2. simpl in Hk2.
  destruct (decide (k ≤ length cur)%nat) as [Hle|Hgt].
  - rewrite take_app_le by done. by apply Hfits.
  - rewrite take_ge by (rewrite length_app; simpl; lia). done.
Qed.

(** The loop, started under the header [h] with the blocks [cur] already in
    the message: it sends the groups [done], each closed by the block that
    crossed the ceiling, and leaves the blocks [cur'] unsent. *)
Lemma alert_loop_chunks domain secrets h cur w :
  fits h cur →
  ∃ (done : list (list pystr)) (cur' : list pystr),
    let h' := match done with [] => h | _ => continued_header domain end in
    alert_loop domain secrets (h ++ concat cur) (Z.of_nat (length cur)) w =
      Res (Ret (h' ++ concat cur', Z.of_nat (length cur'))) w
          (map EvPost (render_chunks domain h done))
    ∧ cur ++ omap secret_block secrets = concat done ++ cur'
    ∧ fits h' cur'
    ∧ ∀ i c, done !! i = Some c →
        flushed (match i with O => h | S _ => continued_header domain end) c.
Proof.
  revert h cur. induction secrets as [|secret rest IH]; intros h cur Hfits.
  - exists [], cur. simpl. split; [done|]. split; [by rewrite app_nil_r|]. done.
  - rewrite alert_loop_cons, omap_cons.
    destruct (secret_block secret) as [b|]; [|by apply IH].
    rewrite Z.gtb_ltb.
    destruct (Z.ltb_spec 3000 (len ((h ++ concat cur) ++ b))) as [Hover|Hin].
    + destruct (IH (continued_header domain) [] (fits_nil _))
        as (done2 & cur2 & Hrun & Hblocks & Hfits2 & Hflushed).
      cbv zeta in Hrun.
      change (concat []) with (@nil N) in Hrun.
      change (Z.of_nat (length (@nil pystr))) with 0 in Hrun.
      rewrite app_nil_r in Hrun.
      exists ((cur ++ [b]) :: done2), cur2. cbv zeta.
      rewrite Hrun. cbn. split; [|split; [|split]].
      * rewrite render_chunks_continued, concat_snoc, app_assoc.
        by destruct done2.
      * simpl in Hblocks. rewrite <- !app_assoc, <- Hblocks. done.
      * by destruct done2.
      * intros [|i] c Hc; simpl in Hc.
        -- injection Hc as <-. exists cur, b.
           rewrite concat_snoc, app_assoc. done.
        -- specialize (Hflushed i c Hc). by destruct i.
    + assert (Hmsg : (h ++ concat cur) ++ b = h ++ concat (cur ++ [b]))
        by (by rewrite concat_snoc, app_assoc).
      assert (Hcnt : Z.of_nat (length cur) + 1 = Z.of_nat (length (cur ++ [b])))
        by (rewrite length_app; simpl; lia).
      rewrite Hmsg, Hcnt. rewrite Hmsg in Hin.
      destruct (IH h (cur ++ [b]) (fits_snoc _ _ _ Hfits Hin))
        as (done2 & cur2 & Hrun & Hblocks & Hfits2 & Hflushed).
      exists done2, cur2. cbv zeta. split; [exact Hrun|].
      split; [|done]. rewrite <- Hblocks, <- app_assoc. done.
Qed.

Lemma render_chunks_snoc domain h chunks c :
  render_chunks domain h (chunks ++ [c]) =
    render_chunks domain h chunks
    ++ [match chunks with [] => h | _ => continued_header domain end ++ concat c].
Proof.
  destruct chunks as [|c0 cs]; [done|]. simpl. by rewrite map_app.
Qed.

Lemma fits_prefix h init b : fits h (init ++ [b]) → fits h init.
Proof.
  intros Hfits k [Hk1 Hk2]. rewrite <- (take_app_le init [b]) by done.
  apply Hfits. rewrite length_app. simpl. lia.
Qed.

(** What the notifier posts, as groups of blocks. *)
Lemma send_telegram_alert_chunks (domain : pystr) (verified_secrets : list json)
    (w : World) :
  let r := _send_telegram_alert domain verified_secrets w in
  out r = Ret tt ∧ world r = w
  ∧ ∃ chunks : list (list pystr),
      concat chunks = omap secret_block verified_secrets
      ∧ events r = map EvPost (render_chunks domain (alert_header domain) chunks)
      ∧ ∀ i c, chunks !! i = Some c →
          ∃ init b,
            c = init ++ [b]
            ∧ fits (header_at domain i) init
            ∧ ((S i < length chunks)%nat →
               3000 < len (header_at domain i ++ concat c)).
Proof.
  cbv zeta. unfold _send_telegram_alert.
  destruct verified_secrets as [|secret rest].
  { simpl. do 2 (split; [done|]). exists []. by repeat split. }
  set (secrets := secret :: rest).
  destruct (alert_loop_chunks domain secrets (alert_header domain) [] w (fits_nil _))
    as (done & cur' & Hrun & Hblocks & Hfits & Hflushed).
  cbv zeta in Hrun, Hfits.
  change (concat []) with (@nil N) in Hrun.
  change (Z.of_nat (length (@nil pystr))) with 0 in Hrun.
  rewrite app_nil_r in Hrun. simpl in Hblocks.
  rewrite mbind_unfold. unfold bind. rewrite Hrun. cbn [out world events].
  destruct cur' as [|b0 cur0] using rev_ind.
  - change (Z.of_nat (length (@nil pystr)) >? 0) with false. cbn.
    do 2 (split; [done|]). exists done. rewrite app_nil_r in *.
    split; [done|]. split; [done|].
    intros i c Hc. destruct (Hflushed i c Hc) as (init & b & -> & Hi & Hover).
    exists init, b. by destruct i.
  - clear IHcur0.
    assert (Hpos : (Z.of_nat (length (cur0 ++ [b0])) >? 0) = true).
    { rewrite length_app. simpl. rewrite Z.gtb_ltb. apply Z.ltb_lt. lia. }
    rewrite Hpos. cbn. do 2 (split; [done|]).
    exists (done ++ [cur0 ++ [b0]]).
    split; [by rewrite concat_snoc|]. split.
    { rewrite render_chunks_snoc, map_app. done. }
    intros i c Hc.
    destruct (decide (i < length done)%nat) as [Hlt|Hge].
    + rewrite lookup_app_l in Hc by done.
      destruct (Hflushed i c Hc) as (init & b & -> & Hi & Hover).
      exists init, b. by destruct i.
    + rewrite lookup_app_r in Hc by lia.
      destruct (i - length done)%nat as [|j] eqn:Hj; [|done].
      injection Hc as <-. exists cur0, b0. split; [done|]. split.
      * apply fits_prefix in Hfits.
        assert (i = length done) as -> by lia.
        destruct done; exact Hfits.
      * rewrite length_app. simpl. lia.
Qed.

(** C3 (as amended). The notifier changes nothing but what it posts.  Its
    messages carry the blocks of the secrets, all of them and in order,
    the first message under the alert header and the later ones under the
    continued header.  In every message no block before the last one took the
    text over 3000 characters, and every message that is followed by another
    one is over 3000 characters: the block that crossed the ceiling is the
    last block of the message that was flushed, and the next message starts
    afresh with the next block. *)
Theorem C3_flush_keeps_crossing_block (domain : pystr) (verified_secrets : list json)
    (w : World) :
  let r := _send_telegram_alert domain verified_secrets w in
  out r = Ret tt ∧ world r = w
  ∧ ∃ chunks : list (list pystr),
      concat chunks = omap secret_block verified_secrets
      ∧ events r = map EvPost (render_chunks domain (alert_header domain) chunks)
      ∧ ∀ i c, chunks !! i = Some c →
          ∃ init b,
            c = init ++ [b]
            ∧ fits (header_at domain i) init
            ∧ ((S i < length chunks)%nat →
               3000 < len (header_at domain i ++ concat c)).
Proof. apply send_telegram_alert_chunks. Qed.

(** ** Finding processor: the success branch *)

Lemma send_telegram_alert_eval domain verified w :
  _send_telegram_alert domain verified w =
    Res (Ret tt) w (events (_send_telegram_alert domain verified w)).
Proof.
  destruct (send_telegram_alert_chunks domain verified w) as (Hout & Hw & _).
  rewrite (res_eta (_send_telegram_alert domain verified w)) at 1.
  by rewrite Hout, Hw.
Qed.

Lemma write_json_eval path doc w :
  write_json path doc w =
    Res (Ret tt) (set_fs (<[path := json_dump doc]> (fs w)) w) [EvDump path doc].
Proof. reflexivity. Qed.

Lemma mark_domain_completed_eval domain w :
  _mark_domain_completed domain w =
    Res (Ret tt) (mark_completed domain w) [EvAppend COMPLETED_FILE (domain ++ [10%N])].
Proof. reflexivity. Qed.

Lemma scan_success_eval domain output w :
  scan_success domain output w =
    let findings := omap valid_record (splitlines output) in
    let w1 := write_raw domain findings w in
    match verified_loop findings [] with
    | Err e => Res (Raise e) w1 [EvDump (output_file domain) findings]
    | Ok verified =>
        let w2 := write_verified domain verified w1 in
        Res (Ret true) (mark_completed domain w2)
          (EvDump (output_file domain) findings
           :: verified_events domain verified w2
           ++ [EvAppend COMPLETED_FILE (domain ++ [10%N])])
    end.
Proof.
  unfold scan_success. rewrite parse_lines_acc. cbn [app]. cbv zeta.
  set (findings := omap valid_record (splitlines output)).
  rewrite (bind_ret_eval _ _ _ _ _ _ (write_json_eval _ _ _)).
  fold (write_raw domain findings w). set (w1 := write_raw domain findings w).
  destruct (verified_loop findings []) as [verified|e].
  - rewrite (bind_ret_eval _ _ w1 verified w1 []) by done.
    assert (Hv : match verified with
                 | [] => mret tt
                 | _ :: _ =>
                     _ ← write_json (verified_file domain) verified;
                     _send_telegram_alert domain verified
                 end w1 =
                 Res (Ret tt) (write_verified domain verified w1)
                   (verified_events domain verified (write_verified domain verified w1))).
    { destruct verified as [|v vs]; [done|].
      rewrite (bind_ret_eval _ _ _ _ _ _ (write_json_eval _ _ _)).
      rewrite send_telegram_alert_eval. done. }
    rewrite (bind_ret_eval _ _ _ _ _ _ Hv).
    rewrite (bind_ret_eval _ _ _ _ _ _ (mark_domain_completed_eval _ _)).
    cbn [out world events ret mret M_mret app]. reflexivity.
  - rewrite (bind_raise_eval _ _ w1 e w1 []) by done. done.
Qed.

(** ** Domain orchestrator *)

Lemma bind_prepend {A B} (m : M A) (k : A → M B) w a w' evs :
  m w = Res (Ret a) w' evs → (m ≫= k) w = prepend evs (k a w').
Proof. apply bind_ret_eval. Qed.

Lemma prepend_prepend {A} evs1 evs2 (r : res A) :
  prepend evs1 (prepend evs2 r) = prepend (evs1 ++ evs2) r.
Proof. unfold prepend. simpl. by rewrite app_assoc. Qed.

Lemma prepend_nil {A} (r : res A) : prepend [] r = r.
Proof. by destruct r. Qed.

(** One round of the [while] loop. *)
Lemma scan_loop_step fuel domain attempts w :
  scan_loop (S fuel) domain attempts w =
    if attempts <? MAX_RETRIES_PER_DOMAIN then
      let g := get_available_pat (clock w) (self w) in
      let w0 := set_self g.2 w in
      let wait := prepend [EvSleep PAT_COOLDOWN]
                    (scan_loop fuel domain attempts
                       (set_clock (clock w0 + PAT_COOLDOWN) w0)) in
      match g.1 with
      | Err e => Res (Raise e) w0 []
      | Ok None => wait
      | Ok (Some []) => wait
      | Ok (Some pat) =>
          match engine (runs w0) domain pat with
          | Exit0 stdout =>
              prepend [EvRun domain pat] (scan_success domain stdout (after_run w0))
          | CalledProcessError stderr =>
              if str_contains (lit "403") stderr then
                let w1 := mark_rate_limited pat (after_run w0) in
                prepend [EvRun domain pat; EvSleep 2]
                  (scan_loop fuel domain (attempts + 1) (set_clock (clock w1 + 2) w1))
              else if str_eqb stderr (lit "rate_limit") then
                let w1 := after_run w0 in
                prepend [EvRun domain pat; EvSleep 2]
                  (scan_loop fuel domain (attempts + 1) (set_clock (clock w1 + 2) w1))
              else Res (Ret false) (after_run w0) [EvRun domain pat]
          | TimeoutExpired => Res (Ret false) (after_run w0) [EvRun domain pat]
          end
      end
    else Res (Ret false) w [].
Proof.
  cbn [scan_loop].
  destruct (attempts <? MAX_RETRIES_PER_DOMAIN); [|done]. cbv zeta.
  pose proof (get_available_pat_eval w) as Hget.
  destruct (get_available_pat (clock w) (self w)) as [[pat|e] s'].
  2: { cbn [fst snd] in *. by rewrite (bind_raise_eval _ _ _ _ _ _ Hget). }
  cbn [fst snd] in *. rewrite (bind_prepend _ _ _ _ _ _ Hget), prepend_nil.
  set (w0 := set_self s' w).
  assert (Hwait :
    (_ ← sleep PAT_COOLDOWN; scan_loop fuel domain attempts) w0 =
      prepend [EvSleep PAT_COOLDOWN]
        (scan_loop fuel domain attempts (set_clock (clock w0 + PAT_COOLDOWN) w0))).
  { by rewrite (bind_prepend _ _ _ _ _ _ (sleep_eval _ _)). }
  destruct pat as [[|c pat]|]; [exact Hwait| |exact Hwait].
  pose proof (run_trufflehog_eval domain (c :: pat) w0) as Hrun.
  destruct (engine (runs w0) domain (c :: pat)) as [stdout|stderr|].
  - rewrite (bind_prepend _ _ _ _ _ _ Hrun). done.
  - destruct (str_contains (lit "403") stderr).
    + rewrite (bind_prepend _ _ _ _ _ _ Hrun). cbv beta iota zeta.
      change (str_eqb (lit "rate_limit") (lit "rate_limit")) with true. cbv iota.
      rewrite (bind_prepend _ _ _ _ _ _ (sleep_eval _ _)).
      by rewrite prepend_prepend.
    + rewrite (bind_prepend _ _ _ _ _ _ Hrun). cbv beta iota zeta.
      destruct (str_eqb stderr (lit "rate_limit")).
      * rewrite (bind_prepend _ _ _ _ _ _ (sleep_eval _ _)).
        by rewrite prepend_prepend.
      * unfold prepend. done.
  - rewrite (bind_prepend _ _ _ _ _ _ Hrun). cbv beta iota zeta.
    change (str_eqb (lit "timeout") (lit "rate_limit")) with false. done.
Qed.

Lemma pat_loop_frame n now s :
  pats (pat_loop n now s).2 = pats s
  ∧ completed_domains (pat_loop n now s).2 = completed_domains s.
Proof.
  revert s. induction n as [|n IH]; intros s; [done|].
  simpl. destruct (pats s !! current_pat_index s) as [pat|]; [|done].
  simpl. destruct (rate_limited_pats s !! pat) as [expiry|]; [|done].
  destruct (expiry >? now); [|done]. apply (IH (advance s)).
Qed.

Lemma same_store_trans w1 w2 w3 :
  same_store w1 w2 → same_store w2 w3 → same_store w1 w3.
Proof. intros (?&?&?) (?&?&?). repeat split; congruence. Qed.

Lemma same_store_get w :
  same_store w (set_self (get_available_pat (clock w) (self w)).2 w).
Proof.
  destruct (pat_loop_frame (length (pats (self w))) (clock w) (self w)) as [H1 H2].
  repeat split; simpl; done.
Qed.

Lemma scan_shape_prepend domain w w' evs r :
  Forall (quiet domain) evs → same_store w w' →
  scan_shape domain w' r → scan_shape domain w (prepend evs r).
Proof.
  intros Hevs Hst (pre & w1 & Hpre & Hst1 & Hr).
  exists (evs ++ pre), w1. split; [by apply Forall_app|].
  split; [by eapply same_store_trans|].
  destruct Hr as [[->|[->|[e ->]]]|(stdout & pat & n & Heng & ->)].
  - by left; left.
  - by left; right; left.
  - left; right; right. by exists e.
  - right. exists stdout, pat, n. split; [done|]. by rewrite prepend_prepend.
Qed.

Lemma scan_loop_shape fuel domain attempts w :
  scan_shape domain w (scan_loop fuel domain attempts w).
Proof.
  revert attempts w. induction fuel as [|fuel IH]; intros attempts w.
  { exists [], w. split; [done|]. split; [done|]. left. right. by left. }
  rewrite scan_loop_step.
  destruct (attempts <? MAX_RETRIES_PER_DOMAIN).
  2: { exists [], w. split; [done|]. split; [done|]. left. by left. }
  cbv zeta. pose proof (same_store_get w) as Hget.
  set (w0 := set_self (get_available_pat (clock w) (self w)).2 w) in *.
  assert (Hwait : scan_shape domain w
            (prepend [EvSleep PAT_COOLDOWN]
               (scan_loop fuel domain attempts
                  (set_clock (clock w0 + PAT_COOLDOWN) w0)))).
  { apply (scan_shape_prepend _ _ (set_clock (clock w0 + PAT_COOLDOWN) w0));
      [by repeat constructor|exact Hget|apply IH]. }
  destruct ((get_available_pat (clock w) (self w)).1) as [[[|c pat]|]|e];
    [exact Hwait| |exact Hwait|].
  2: { exists [], w0. split; [done|]. split; [done|]. left. right. right. by exists e. }
  assert (Hquiet1 : Forall (quiet domain) [EvRun domain (c :: pat)])
    by (by repeat constructor).
  assert (Hquiet2 : Forall (quiet domain) [EvRun domain (c :: pat); EvSleep 2])
    by (by repeat constructor).
  assert (Hfail : scan_shape domain w
            (Res (Ret false) (after_run w0) [EvRun domain (c :: pat)])).
  { exists [EvRun domain (c :: pat)], (after_run w0).
    split; [done|]. split; [exact Hget|]. by left; left. }
  destruct (engine (runs w0) domain (c :: pat)) as [stdout|stderr|] eqn:Heng;
    [| |exact Hfail].
  - exists [EvRun domain (c :: pat)], (after_run w0).
    split; [done|]. split; [exact Hget|]. right. by exists stdout, (c :: pat), (runs w0).
  - destruct (str_contains (lit "403") stderr).
    + cbv zeta.
      eapply scan_shape_prepend; [done| |apply IH]. exact Hget.
    + destruct (str_eqb stderr (lit "rate_limit")); [|exact Hfail].
      cbv zeta. eapply scan_shape_prepend; [done| |apply IH]. exact Hget.
Qed.

Lemma verified_loop_sound findings acc verified :
  verified_loop findings acc = Ok verified →
  ∀ f, f ∈ verified →
    f ∈ acc ∨ (f ∈ findings ∧ truthy (verified_flag f) = true
               ∧ ∃ o, github_data f = Ok (JObj o)).
Proof.
  revert acc. induction findings as [|entry rest IH]; intros acc Hrun f Hf.
  { injection Hrun as <-. by left. }
  assert (Hrest : verified_loop rest acc = Ok verified →
                  f ∈ acc ∨ (f ∈ entry :: rest ∧ truthy (verified_flag f) = true
                             ∧ ∃ o, github_data f = Ok (JObj o))).
  { intros H. destruct (IH _ H f Hf) as [?|(?&?&?)]; [by left|].
    right. split; [by right|done]. }
  simpl in Hrun. destruct entry as [| | | | | |o]; simpl in Hrun; try by apply Hrest.
  change (pyres_bind (Ok (dict_get o (lit "Verified") JNull))
            (λ flag, if negb (truthy flag) then verified_loop rest acc
                     else gh_data ← github_data (JObj o);
                          if negb (isinstance_dict gh_data) then verified_loop rest acc
                          else verified_loop rest (acc ++ [JObj o])) = Ok verified)
    in Hrun.
  simpl in Hrun.
  destruct (truthy (dict_get o (lit "Verified") JNull)) eqn:Hflag; simpl in Hrun;
    [|by apply Hrest].
  destruct (github_data (JObj o)) as [gh|e] eqn:Hgh; [|done].
  simpl in Hrun.
  destruct gh as [| | | | | |g]; simpl in Hrun; try by apply Hrest.
  destruct (IH _ Hrun f Hf) as [Hacc|(?&?&?)].
  - apply elem_of_app in Hacc as [?|Hnew]; [by left|].
    apply list_elem_of_singleton in Hnew as ->.
    right. split; [by left|]. split; [exact Hflag|]. by exists g.
  - right. split; [by right|done].
Qed.

Lemma secret_block_no_permalink f :
  truthy (permalink f) = false → secret_block f = None.
Proof.
  unfold permalink, secret_block, alert_fields. intros Hlink.
  destruct (isinstance_dict f); [|done].
  destruct (py_get f (lit "DetectorName") (JStr (lit "Unknown Secret"))) as [d|e];
    [|done].
  simpl. destruct (github_data f) as [gh|e]; [|done].
  destruct gh; try done. simpl in *. by rewrite Hlink.
Qed.

Lemma scan_loop_false_frame fuel domain attempts w :
  out (scan_loop fuel domain attempts w) = Ret false →
  fs (world (scan_loop fuel domain attempts w)) = fs w
  ∧ completed_domains (self (world (scan_loop fuel domain attempts w)))
    = completed_domains (self w)
  ∧ ∀ ev, ev ∈ events (scan_loop fuel domain attempts w) →
      (∃ pat, ev = EvRun domain pat) ∨ (∃ seconds, ev = EvSleep seconds).
Proof.
  intros Hout.
  destruct (scan_loop_shape fuel domain attempts w)
    as (pre & w1 & Hpre & (Hfs & Hcd & _) & Hr).
  rewrite Forall_forall in Hpre.
  destruct Hr as [Hfail|(stdout & pat & n & Heng & Hr)].
  - assert (Hw : world (scan_loop fuel domain attempts w) = w1
               ∧ events (scan_loop fuel domain attempts w) = pre).
    { by destruct Hfail as [->|[->|[e ->]]]. }
    destruct Hw as [Hw Hev]. rewrite Hw, Hev. repeat split; [done..|].
    intros ev Hin. specialize (Hpre ev Hin).
    destruct ev; simpl in Hpre; try done; [left|right]; subst; eauto.
  - rewrite Hr, scan_success_eval in Hout. cbv zeta in Hout.
    by destruct (verified_loop _ []).
Qed.


(** C1 (as amended). In a scan that returns [True], the events that follow
    the engine runs are: the raw-results artifact with the parsed findings;
    when some finding passed the verified filter, the verified-results
    artifact with the findings that passed, and the alert messages, whose
    blocks are those of the filtered findings that have a block; the ledger
    line.  A finding without a true verified flag is not among the filtered
    findings, so it is in neither the artifact nor the alert; a finding
    without a permalink has no block. *)
Theorem C1_verified_filter (fuel : nat) (domain : pystr) (w : World) :
  let r := scan_domain fuel domain w in
  out r = Ret true →
  ∃ pre stdout verified chunks,
    let findings := omap valid_record (splitlines stdout) in
    Forall (quiet domain) pre
    ∧ verified_loop findings [] = Ok verified
    ∧ events r =
        pre ++ EvDump (output_file domain) findings
        :: match verified with
           | [] => []
           | _ => EvDump (verified_file domain) verified
                  :: map EvPost (render_chunks domain (alert_header domain) chunks)
           end
        ++ [EvAppend COMPLETED_FILE (domain ++ [10%N])]
    ∧ concat chunks = omap secret_block verified
    ∧ ∀ f, (truthy (verified_flag f) = false → f ∉ verified)
           ∧ (truthy (permalink f) = false → secret_block f = None).
Proof.
  cbv zeta. unfold scan_domain. intros Hout.
  destruct (scan_loop_shape fuel domain 0 w)
    as (pre & w1 & Hpre & _ & [Hfail|(stdout & pat & n & Heng & Hr)]).
  { by destruct Hfail as [Hf|[Hf|[e Hf]]]; rewrite Hf in Hout. }
  rewrite Hr in Hout |- *. rewrite scan_success_eval in Hout |- *.
  cbv zeta in Hout |- *.
  destruct (verified_loop (omap valid_record (splitlines stdout)) [])
    as [verified|e] eqn:Hver; [|done].
  set (w2 := write_verified domain verified _).
  destruct (send_telegram_alert_chunks domain verified w2)
    as (_ & _ & chunks & Hconcat & Hposts & _).
  exists pre, stdout, verified, chunks.
  split; [done|]. split; [done|]. split; [|split; [done|]].
  - unfold prepend, verified_events. cbn [events]. rewrite Hposts. done.
  - intros f. split; [|apply secret_block_no_permalink].
    intros Hflag Hin.
    destruct (verified_loop_sound _ _ _ Hver f Hin) as [Hnil|(_ & Htrue & _)].
    + by apply elem_of_nil in Hnil.
    + congruence.
Qed.

(** *** The retry ceiling *)

Lemma engine_starts_app evs1 evs2 :
  engine_starts (evs1 ++ evs2) = engine_starts evs1 ++ engine_starts evs2.
Proof. apply omap_app. Qed.

Lemma pool_ready_get w :
  pool_ready w →
  pool_ready (set_self (get_available_pat (clock w) (self w)).2 w).
Proof.
  intros (Hidx & Hne & Hexp).
  destruct (pat_loop_wf (length (pats (self w))) (clock w) (self w) Hidx)
    as (Hp & _ & Hi & Hrl & _).
  unfold get_available_pat. repeat split; simpl.
  - by rewrite Hp.
  - by rewrite Hp.
  - intros pat expiry He. apply (Hexp pat expiry). by apply Hrl.
Qed.

Lemma get_cases w :
  pool_ready w →
  (get_available_pat (clock w) (self w)).1 = Ok None
  ∨ ∃ c pat, (get_available_pat (clock w) (self w)).1 = Ok (Some (c :: pat)).
Proof.
  intros (Hidx & Hne & _).
  destruct (pat_loop_wf (length (pats (self w))) (clock w) (self w) Hidx)
    as (_ & _ & _ & _ & [Hnone|(pat & Hsome & Hin)]); [by left|].
  right. destruct pat as [|c pat]; [done|]. by exists c, pat.
Qed.

Lemma get_some_when_free w :
  pool_ready w →
  (∀ pat, ¬ cooling (self w) (clock w) pat) →
  ∃ c pat, (get_available_pat (clock w) (self w)).1 = Ok (Some (c :: pat)).
Proof.
  intros (Hidx & Hne & _) Hfree.
  destruct (lookup_lt_is_Some_2 _ _ Hidx) as [pat Hpat].
  unfold get_available_pat.
  replace (length (pats (self w))) with (S (pred (length (pats (self w))))) by lia.
  rewrite (pat_loop_free _ _ _ pat Hpat (Hfree pat)). simpl.
  destruct pat as [|c pat]; [|by eauto].
  destruct Hne. by eapply list_elem_of_lookup_2.
Qed.

Lemma pool_ready_wait w :
  pool_ready w →
  pool_ready (set_clock (clock w + PAT_COOLDOWN) w)
  ∧ ∀ pat, ¬ cooling (self w) (clock w + PAT_COOLDOWN) pat.
Proof.
  intros (Hidx & Hne & Hexp). split.
  - repeat split; simpl; [done..|].
    intros pat expiry He. specialize (Hexp pat expiry He).
    unfold PAT_COOLDOWN in *. lia.
  - intros pat (expiry & He & Hlt). specialize (Hexp pat expiry He). lia.
Qed.

Lemma wait_round fuel domain attempts w :
  attempts < MAX_RETRIES_PER_DOMAIN →
  (get_available_pat (clock w) (self w)).1 = Ok None →
  scan_loop (S fuel) domain attempts w =
    prepend [EvSleep PAT_COOLDOWN]
      (scan_loop fuel domain attempts
         (set_clock (clock w + PAT_COOLDOWN)
            (set_self (get_available_pat (clock w) (self w)).2 w))).
Proof.
  intros Hlt Hnone. rewrite scan_loop_step.
  destruct (Z.ltb_spec attempts MAX_RETRIES_PER_DOMAIN); [|lia].
  cbv zeta. by rewrite Hnone.
Qed.

Lemma attempt_round fuel domain attempts w c pat :
  pool_ready w →
  (∀ n p, reports_403 (engine n domain p) = true) →
  attempts < MAX_RETRIES_PER_DOMAIN →
  (get_available_pat (clock w) (self w)).1 = Ok (Some (c :: pat)) →
  ∃ w', scan_loop (S fuel) domain attempts w =
          prepend [EvRun domain (c :: pat); EvSleep 2]
            (scan_loop fuel domain (attempts + 1) w')
        ∧ pool_ready w' ∧ runs w' = S (runs w).
Proof.
  intros Hready H403 Hlt Hsome.
  pose proof (pool_ready_get w Hready) as (Hidx & Hne & Hexp).
  set (w0 := set_self (get_available_pat (clock w) (self w)).2 w) in *.
  set (w1 := mark_rate_limited (c :: pat) (after_run w0)).
  exists (set_clock (clock w1 + 2) w1). split; [|split].
  - rewrite scan_loop_step.
    destruct (Z.ltb_spec attempts MAX_RETRIES_PER_DOMAIN); [|lia].
    cbv zeta. rewrite Hsome. fold w0.
    specialize (H403 (runs w0) (c :: pat)).
    destruct (engine (runs w0) domain (c :: pat)) as [stdout|stderr|]; [done| |done].
    simpl in H403. by rewrite H403.
  - repeat split; simpl; [done..|].
    intros p expiry He. unfold PAT_COOLDOWN in *.
    destruct (decide (p = c :: pat)) as [->|Hp].
    + rewrite lookup_insert_eq in He. injection He as <-. lia.
    + rewrite lookup_insert_ne in He by done.
      specialize (Hexp p expiry He). simpl in Hexp. lia.
  - done.
Qed.

(** With [k] attempts left and fuel for them, a target that is always
    rate-limited gets exactly [k] engine runs and the scan returns [False]. *)
Lemma scan_loop_rate_limited domain (k : nat) :
  (∀ n p, reports_403 (engine n domain p) = true) →
  ∀ fuel attempts w,
    pool_ready w →
    attempts = MAX_RETRIES_PER_DOMAIN - Z.of_nat k →
    (2 * k + 1 ≤ fuel)%nat →
    out (scan_loop fuel domain attempts w) = Ret false
    ∧ length (engine_starts (events (scan_loop fuel domain attempts w))) = k
    ∧ runs (world (scan_loop fuel domain attempts w)) = (runs w + k)%nat.
Proof.
  intros H403. induction k as [|k IH]; intros fuel attempts w Hready Hatt Hfuel.
  - destruct fuel as [|fuel]; [lia|]. rewrite scan_loop_step.
    destruct (Z.ltb_spec attempts MAX_RETRIES_PER_DOMAIN); [lia|].
    simpl. split; [done|]. split; [done|]. lia.
  - assert (Hlt : attempts < MAX_RETRIES_PER_DOMAIN) by lia.
    assert (Hround : ∀ f w1 c pat,
      (2 * k + 1 ≤ f)%nat → pool_ready w1 →
      (get_available_pat (clock w1) (self w1)).1 = Ok (Some (c :: pat)) →
      out (scan_loop (S f) domain attempts w1) = Ret false
      ∧ length (engine_starts (events (scan_loop (S f) domain attempts w1))) = S k
      ∧ runs (world (scan_loop (S f) domain attempts w1)) = (runs w1 + S k)%nat).
    { intros f w1 c pat Hf Hready1 Hsome.
      destruct (attempt_round f domain attempts w1 c pat Hready1 H403 Hlt Hsome)
        as (w' & -> & Hready' & Hruns).
      destruct (IH f (attempts + 1) w' Hready') as (Hout & Hcount & Hr); [lia|lia|].
      unfold prepend. cbn [out world events].
      rewrite engine_starts_app, length_app, Hcount, Hr, Hruns.
      split; [done|]. split; [done|]. lia. }
    destruct fuel as [|fuel]; [lia|].
    destruct (get_cases w Hready) as [Hnone|(c & pat & Hsome)].
    + rewrite (wait_round fuel domain attempts w Hlt Hnone).
      pose proof (pool_ready_get w Hready) as Hready0.
      set (w0 := set_self (get_available_pat (clock w) (self w)).2 w) in *.
      destruct (pool_ready_wait w0 Hready0) as [Hready1 Hfree].
      change (clock w) with (clock w0).
      destruct (get_some_when_free _ Hready1 Hfree) as (c & pat & Hsome).
      destruct fuel as [|fuel]; [lia|].
      destruct (Hround fuel _ c pat ltac:(lia) Hready1 Hsome) as (Hout & Hcount & Hr).
      unfold prepend. cbn [out world events].
      rewrite engine_starts_app, length_app, Hcount, Hr.
      split; [done|]. split; [done|]. done.
    + apply (Hround fuel w c pat); [lia|done..].
Qed.

(** C7. For a target whose every engine run ends rate-limited, and enough
    fuel for the loop, the scan starts the engine exactly 3 times, each time
    for this target, and then returns [False], the completed set and the
    files (the ledger among them) being as they were. *)
Theorem C7_retry_ceiling (fuel : nat) (domain : pystr) (w : World) :
  pool_ready w →
  (∀ n pat, reports_403 (engine n domain pat) = true) →
  (7 ≤ fuel)%nat →
  let r := scan_domain fuel domain w in
  out r = Ret false
  ∧ length (engine_starts (events r)) = 3%nat
  ∧ (∀ ev, ev ∈ events r →
       (∃ pat, ev = EvRun domain pat) ∨ (∃ seconds, ev = EvSleep seconds))
  ∧ runs (world r) = (runs w + 3)%nat
  ∧ completed_domains (self (world r)) = completed_domains (self w)
  ∧ fs (world r) = fs w.
Proof.
  intros Hready H403 Hfuel. cbv zeta. unfold scan_domain.
  destruct (scan_loop_rate_limited domain 3 H403 fuel 0 w Hready)
    as (Hout & Hcount & Hruns); [done|lia|].
  destruct (scan_loop_false_frame fuel domain 0 w Hout) as (Hfs & Hcd & Hev).
  done.
Qed.

(** ** Cycle scheduler *)

Lemma no_run_app d evs1 evs2 :
  no_run d evs1 → no_run d evs2 → no_run d (evs1 ++ evs2).
Proof.
  intros H1 H2 pat Hin. apply elem_of_app in Hin as [Hin|Hin];
    [by apply (H1 pat)|by apply (H2 pat)].
Qed.

Lemma no_run_nil d : no_run d [].
Proof. intros pat Hin. by apply elem_of_nil in Hin. Qed.

Lemma no_run_quiet d domain evs :
  d ≠ domain → Forall (quiet domain) evs → no_run d evs.
Proof.
  intros Hne Hq pat Hin. rewrite Forall_forall in Hq.
  specialize (Hq _ Hin). simpl in Hq. congruence.
Qed.

Lemma no_run_posts d (texts : list pystr) : no_run d (map EvPost texts).
Proof.
  intros pat Hin. apply list_elem_of_fmap in Hin as (t & Ht & _). done.
Qed.

Lemma no_run_alert d domain verified w :
  no_run d (events (_send_telegram_alert domain verified w)).
Proof.
  destruct (send_telegram_alert_chunks domain verified w)
    as (_ & _ & chunks & _ & -> & _).
  apply no_run_posts.
Qed.

Lemma no_run_cons d ev evs :
  engine_start ev = None → no_run d evs → no_run d (ev :: evs).
Proof.
  intros Hev H pat Hin. apply elem_of_cons in Hin as [<-|Hin]; [done|].
  by apply (H pat).
Qed.

(** A scan of another target never starts the engine for [d], and [d]
    stays in the completed set. *)
Lemma scan_loop_keeps fuel domain attempts w d :
  d ∈ completed_domains (self w) → d ≠ domain →
  no_run d (events (scan_loop fuel domain attempts w))
  ∧ d ∈ completed_domains (self (world (scan_loop fuel domain attempts w))).
Proof.
  intros Hd Hne.
  destruct (scan_loop_shape fuel domain attempts w)
    as (pre & w1 & Hpre & (Hfs & Hcd & _) & Hr).
  pose proof (no_run_quiet d domain pre Hne Hpre) as Hnopre.
  destruct Hr as [Hfail|(stdout & pat & n & Heng & ->)].
  - assert (Hw : world (scan_loop fuel domain attempts w) = w1
               ∧ events (scan_loop fuel domain attempts w) = pre).
    { by destruct Hfail as [->|[->|[e ->]]]. }
    destruct Hw as [-> ->]. split; [done|]. by rewrite Hcd.
  - rewrite scan_success_eval. cbv zeta.
    destruct (verified_loop _ []) as [verified|e]; unfold prepend; cbn [events world].
    + split.
      * apply no_run_app; [done|]. apply no_run_cons; [done|].
        apply no_run_app; [|by apply no_run_cons, no_run_nil].
        unfold verified_events. destruct verified; [apply no_run_nil|].
        apply no_run_cons; [done|]. apply no_run_alert.
      * unfold mark_completed. cbn. apply elem_of_union_r.
        destruct verified; cbn; by rewrite Hcd.
    + split.
      * apply no_run_app; [done|]. by apply no_run_cons, no_run_nil.
      * cbn. by rewrite Hcd.
Qed.

(** A scan that returns [True] has put its target into the completed set. *)
Lemma scan_loop_marks fuel domain attempts w :
  out (scan_loop fuel domain attempts w) = Ret true →
  domain ∈ completed_domains (self (world (scan_loop fuel domain attempts w))).
Proof.
  intros Hout.
  destruct (scan_loop_shape fuel domain attempts w)
    as (pre & w1 & _ & _ & [Hfail|(stdout & pat & n & Heng & Hr)]).
  { by destruct Hfail as [Hf|[Hf|[e Hf]]]; rewrite Hf in Hout. }
  rewrite Hr in Hout |- *. rewrite scan_success_eval in Hout |- *.
  cbv zeta in Hout |- *.
  destruct (verified_loop _ []) as [verified|e]; [|done].
  unfold prepend, mark_completed. cbn. apply elem_of_union_l.
  by apply elem_of_singleton.
Qed.

Lemma run_loop_cons fuel domain rest w :
  run_loop fuel (domain :: rest) w =
    if bool_decide (domain ∈ completed_domains (self w)) then run_loop fuel rest w
    else
      let r1 := scan_domain fuel domain w in
      match out r1 with
      | Ret _ =>
          prepend (events r1 ++ [EvSleep 5])
            (run_loop fuel rest (set_clock (clock (world r1) + 5) (world r1)))
      | Raise e => Res (Raise e) (world r1) (events r1)
      | OutOfFuel => Res OutOfFuel (world r1) (events r1)
      end.
Proof.
  cbn [run_loop].
  rewrite (bind_prepend _ _ w (completed_domains (self w)) w []) by done.
  rewrite prepend_nil.
  destruct (bool_decide (domain ∈ completed_domains (self w))); [done|].
  cbv zeta. rewrite mbind_unfold. unfold bind at 1.
  destruct (out (scan_domain fuel domain w)); [|done..].
  rewrite (bind_prepend _ _ _ _ _ _ (sleep_eval _ _)).
  unfold prepend. cbn [out world events]. by rewrite app_assoc.
Qed.

Lemma run_loop_keeps fuel domains w d :
  d ∈ completed_domains (self w) →
  no_run d (events (run_loop fuel domains w))
  ∧ d ∈ completed_domains (self (world (run_loop fuel domains w))).
Proof.
  revert w. induction domains as [|domain rest IH]; intros w Hd.
  { split; [apply no_run_nil|done]. }
  rewrite run_loop_cons. case_bool_decide as Hdone; [by apply IH|].
  assert (Hne : d ≠ domain) by (by intros ->).
  destruct (scan_loop_keeps fuel domain 0 w d Hd Hne) as [Hno Hkeep].
  fold (scan_domain fuel domain w) in Hno, Hkeep. cbv zeta.
  destruct (out (scan_domain fuel domain w)); [|done..].
  destruct (IH (set_clock (clock (world (scan_domain fuel domain w)) + 5)
                  (world (scan_domain fuel domain w))) Hkeep) as [Hno' Hkeep'].
  unfold prepend. cbn [events world]. split; [|done].
  apply no_run_app; [|done]. apply no_run_app; [done|].
  by apply no_run_cons, no_run_nil.
Qed.

Lemma run_eval fuel w :
  run fuel w =
    match fs w !! DOMAINS_FILE with
    | None => Res (Raise (Exn FileNotFoundError (DOMAINS_FILE ++ lit " not found"))) w []
    | Some content => run_loop fuel (stripped_lines content) w
    end.
Proof.
  unfold run.
  rewrite (bind_prepend _ _ w (bool_decide (is_Some (fs w !! DOMAINS_FILE))) w [])
    by done.
  rewrite prepend_nil. pose proof (read_text_eval DOMAINS_FILE w) as Hread.
  destruct (fs w !! DOMAINS_FILE) as [content|] eqn:Hfs.
  - rewrite bool_decide_eq_true_2 by eauto. cbn [negb].
    rewrite (bind_prepend _ _ _ _ _ _ Hread). apply prepend_nil.
  - rewrite bool_decide_eq_false_2 by (by intros [? [=]]). done.
Qed.

Lemma run_keeps fuel w d :
  d ∈ completed_domains (self w) →
  no_run d (events (run fuel w))
  ∧ d ∈ completed_domains (self (world (run fuel w))).
Proof.
  intros Hd. rewrite run_eval.
  destruct (fs w !! DOMAINS_FILE); [by apply run_loop_keeps|].
  split; [apply no_run_nil|done].
Qed.

(** One round of the [while True] loop. *)
Lemma run_continuously_step cycles fuel w :
  run_continuously (S cycles) fuel w =
    let started := EvPost ([128268%N] ++ lit " Trufflehog scanner started new cycle") in
    let r1 := run fuel w in
    match out r1 with
    | Ret _ =>
        let w1 := world r1 in
        let end_time := clock w + RUN_DURATION in
        let early := clock w1 <? end_time in
        let w2 := if early then set_clock (clock w1 + (end_time - clock w1)) w1
                  else w1 in
        let pause :=
          EvPost ([128721%N] ++ lit " Scanner pausing for 60 minute break. Resuming at "
                  ++ strftime_HM (clock w2 + BREAK_DURATION)) in
        prepend (started :: events r1
                 ++ (if early then [EvSleep (end_time - clock w1)] else [])
                 ++ [pause; EvSleep BREAK_DURATION])
          (run_continuously cycles fuel (set_clock (clock w2 + BREAK_DURATION) w2))
    | Raise e => Res (Raise e) (world r1) (started :: events r1)
    | OutOfFuel => Res OutOfFuel (world r1) (started :: events r1)
    end.
Proof.
  cbn [run_continuously]. unfold time_time, _send_telegram_message.
  rewrite (bind_prepend _ _ w (clock w) w []) by done. rewrite prepend_nil.
  rewrite (bind_prepend _ _ w tt w [EvPost _]) by done.
  rewrite mbind_unfold. unfold bind at 1. cbv zeta.
  destruct (out (run fuel w)) as [[]| |]; [|done..].
  set (w1 := world (run fuel w)).
  rewrite (bind_prepend _ _ w1 (clock w1) w1 []) by done. rewrite prepend_nil.
  destruct (clock w1 <? clock w + RUN_DURATION).
  - rewrite (bind_prepend _ _ w1 tt
               (set_clock (clock w1 + (clock w + RUN_DURATION - clock w1)) w1)
               [EvSleep (clock w + RUN_DURATION - clock w1)]) by done.
    set (w2 := set_clock _ w1).
    rewrite (bind_prepend _ _ w2 (clock w2) w2 []) by done. rewrite prepend_nil.
    rewrite (bind_prepend _ _ w2 tt w2 [EvPost _]) by done.
    rewrite (bind_prepend _ _ _ _ _ _ (sleep_eval _ _)).
    unfold prepend. cbn [out world events]. f_equal.
    cbn [app]. rewrite <- !app_assoc. reflexivity.
  - rewrite (bind_prepend _ _ w1 tt w1 []) by done. rewrite prepend_nil.
    rewrite (bind_prepend _ _ w1 (clock w1) w1 []) by done. rewrite prepend_nil.
    rewrite (bind_prepend _ _ w1 tt w1 [EvPost _]) by done.
    rewrite (bind_prepend _ _ _ _ _ _ (sleep_eval _ _)).
    unfold prepend. cbn [out world events]. f_equal.
    cbn [app]. rewrite <- !app_assoc. reflexivity.
Qed.

Lemma run_continuously_keeps cycles fuel w d :
  d ∈ completed_domains (self w) →
  no_run d (events (run_continuously cycles fuel w)).
Proof.
  revert w. induction cycles as [|cycles IH]; intros w Hd; [apply no_run_nil|].
  rewrite run_continuously_step. cbv zeta.
  destruct (run_keeps fuel w d Hd) as [Hno Hkeep].
  destruct (out (run fuel w)).
  - unfold prepend. cbn [events]. apply no_run_app.
    + apply no_run_cons; [done|]. apply no_run_app; [done|].
      apply no_run_app; [|by apply no_run_cons, no_run_cons, no_run_nil].
      destruct (_ <? _); [by apply no_run_cons, no_run_nil|apply no_run_nil].
    + apply IH. by destruct (_ <? _).
  - by apply no_run_cons.
  - by apply no_run_cons.
Qed.

Lemma load_pats_eval w :
  _load_pats w =
    match fs w !! PATS_FILE with
    | None =>
        Res (Raise (Exn FileNotFoundError
                      (lit "[Errno 2] No such file or directory: '"
                       ++ PATS_FILE ++ lit "'"))) w []
    | Some content =>
        match stripped_lines content with
        | [] => Res (Raise (Exn ValueError (lit "No PATs found."))) w []
        | pats => Res (Ret pats) w []
        end
    end.
Proof.
  unfold _load_pats. pose proof (read_text_eval PATS_FILE w) as Hread.
  destruct (fs w !! PATS_FILE) as [content|].
  - rewrite (bind_prepend _ _ _ _ _ _ Hread), prepend_nil.
    by destruct (stripped_lines content).
  - by rewrite (bind_raise_eval _ _ _ _ _ _ Hread).
Qed.

Lemma load_completed_domains_eval w :
  _load_completed_domains w = Res (Ret (ledger_set w)) w [].
Proof.
  unfold _load_completed_domains, ledger_set.
  rewrite (bind_prepend _ _ w (bool_decide (is_Some (fs w !! COMPLETED_FILE))) w [])
    by done.
  rewrite prepend_nil. pose proof (read_text_eval COMPLETED_FILE w) as Hread.
  destruct (fs w !! COMPLETED_FILE) as [content|].
  - rewrite bool_decide_eq_true_2 by eauto. cbn [negb].
    by rewrite (bind_prepend _ _ _ _ _ _ Hread).
  - rewrite bool_decide_eq_false_2 by (by intros [? [=]]). done.
Qed.

(** The world [__init__] leaves when the credential list is [pats]. *)
Lemma init_eval w :
  __init__ w =
    match _load_pats w with
    | Res (Ret pats) _ _ =>
        Res (Ret tt) (set_self (mkScanner pats (ledger_set w) ∅ 0) w) []
    | Res (Raise e) _ _ => Res (Raise e) w []
    | Res OutOfFuel _ _ => Res OutOfFuel w []
    end.
Proof.
  unfold __init__. pose proof (load_pats_eval w) as Hload.
  destruct (fs w !! PATS_FILE) as [content|].
  - destruct (stripped_lines content) as [|pat pats].
    + rewrite Hload. by rewrite (bind_raise_eval _ _ _ _ _ _ Hload).
    + rewrite Hload. rewrite (bind_prepend _ _ _ _ _ _ Hload), prepend_nil.
      set (w1 := set_self (set_pats (pat :: pats) (self w)) w).
      rewrite (bind_prepend _ _ w tt w1 []) by done. rewrite prepend_nil.
      assert (Hl : _load_completed_domains w1 = Res (Ret (ledger_set w)) w1 [])
        by exact (load_completed_domains_eval w1).
      rewrite (bind_prepend _ _ _ _ _ _ Hl), prepend_nil.
      set (w2 := set_self (set_completed_domains (ledger_set w) (self w1)) w1).
      rewrite (bind_prepend _ _ w1 tt w2 []) by done. rewrite prepend_nil.
      set (w3 := set_self (set_rate_limited_pats ∅ (self w2)) w2).
      rewrite (bind_prepend _ _ w2 tt w3 []) by done. rewrite prepend_nil.
      done.
  - rewrite Hload. by rewrite (bind_raise_eval _ _ _ _ _ _ Hload).
Qed.

Lemma main_try_eval cycles fuel w :
  main_try cycles fuel w =
    match _load_pats w with
    | Res (Ret pats) _ _ =>
        run_continuously cycles fuel
          (set_self (mkScanner pats (ledger_set w) ∅ 0) w)
    | Res (Raise e) _ _ => Res (Raise e) w []
    | Res OutOfFuel _ _ => Res OutOfFuel w []
    end.
Proof.
  unfold main_try. pose proof (init_eval w) as Hinit.
  destruct (_load_pats w) as [[pats|e|] w' evs].
  - rewrite (bind_prepend _ _ _ _ _ _ Hinit). apply prepend_nil.
  - by rewrite (bind_raise_eval _ _ _ _ _ _ Hinit).
  - rewrite mbind_unfold. unfold bind. by rewrite Hinit.
Qed.

Lemma main_eval cycles fuel w :
  main cycles fuel w =
    let r := main_try cycles fuel w in
    match out r with
    | Raise e => Res (Ret tt) (world r) (events r ++ [crash_post e])
    | _ => r
    end.
Proof. unfold main. cbv zeta. by destruct (out (main_try cycles fuel w)). Qed.


Lemma no_run_main cycles fuel w d :
  (∃ content, fs w !! COMPLETED_FILE = Some content ∧ d ∈ stripped_lines content) →
  no_run d (events (main cycles fuel w)).
Proof.
  intros (content & Hfs & Hd).
  assert (Hno : no_run d (events (main_try cycles fuel w))).
  { rewrite main_try_eval. destruct (_load_pats w) as [[pats|e|] w' evs];
      [|apply no_run_nil..].
    apply run_continuously_keeps. cbn. unfold ledger_set. rewrite Hfs.
    by apply elem_of_list_to_set. }
  rewrite main_eval. cbv zeta. destruct (out (main_try cycles fuel w)); [done| |done].
  cbn [events]. apply no_run_app; [done|]. by apply no_run_cons, no_run_nil.
Qed.

(** C9. A target that is in the completed set is skipped by the pass over
    the target list and by every later cycle: the engine is never started
    for it, and it stays in the set.  A target listed in the completed
    ledger when the process starts is in the set from the start, so the
    whole process never starts the engine for it.  And a scan that returns
    [True] has put its target into the set. *)
Theorem C9_completed_never_scanned (cycles fuel : nat) (w : World) (d : pystr) :
  (d ∈ completed_domains (self w) →
     (∀ pat, EvRun d pat ∉ events (run fuel w))
     ∧ d ∈ completed_domains (self (world (run fuel w)))
     ∧ ∀ pat, EvRun d pat ∉ events (run_continuously cycles fuel w))
  ∧ ((∃ content, fs w !! COMPLETED_FILE = Some content
                 ∧ d ∈ stripped_lines content) →
     ∀ pat, EvRun d pat ∉ events (main cycles fuel w))
  ∧ (out (scan_domain fuel d w) = Ret true →
     d ∈ completed_domains (self (world (scan_domain fuel d w)))).
Proof.
  split; [|split].
  - intros Hd. destruct (run_keeps fuel w d Hd) as [Hno Hkeep].
    split; [exact Hno|]. split; [exact Hkeep|].
    by apply run_continuously_keeps.
  - apply no_run_main.
  - apply scan_loop_marks.
Qed.


(** *** The state [__init__] builds *)

Lemma stripped_lines_nonempty content : ([] : pystr) ∉ stripped_lines content.
Proof.
  unfold stripped_lines. intros Hin.
  apply list_elem_of_fmap in Hin as (line & Heq & Hin).
  apply list_elem_of_filter in Hin as [Hne _]. congruence.
Qed.

(** [pool_ready] holds of the scanner as it comes out of [__init__]. *)
Lemma init_pool_ready w :
  out (__init__ w) = Ret tt → pool_ready (world (__init__ w)).
Proof.
  rewrite init_eval, load_pats_eval.
  destruct (fs w !! PATS_FILE) as [content|]; [|done].
  pose proof (stripped_lines_nonempty content) as Hne.
  destruct (stripped_lines content) as [|pat pats]; [done|]. intros _.
  repeat split; cbn.
  - lia.
  - exact Hne.
  - intros p e He. by rewrite lookup_empty in He.
Qed.


(** * Further properties *)

(** ** The verified filter *)

Lemma verified_loop_cons entry rest acc :
  verified_loop (entry :: rest) acc =
    match github_data entry with
    | Err e =>
        if isinstance_dict entry && truthy (verified_flag entry) then Err e
        else verified_loop rest acc
    | Ok gh_data =>
        if passes_filter entry then verified_loop rest (acc ++ [entry])
        else verified_loop rest acc
    end.
Proof.
  unfold passes_filter.
  destruct entry as [| | | | | |o]; try reflexivity.
  cbn [verified_loop isinstance_dict negb verified_flag andb].
  change (py_get (JObj o) (lit "Verified") JNull)
    with (Ok (dict_get o (lit "Verified") JNull)).
  unfold mbind, pyres_mbind. cbn [pyres_bind].
  destruct (truthy (dict_get o (lit "Verified") JNull)); cbn [negb].
  - destruct (github_data (JObj o)) as [gh|e]; cbn [pyres_bind]; [|done].
    by destruct (isinstance_dict gh).
  - by destruct (github_data (JObj o)).
Qed.

Lemma py_get_error v key default e :
  py_get v key default = Err e → exn_cls e = AttributeError.
Proof. destruct v; intros [=]; by subst. Qed.

Lemma github_data_error f e :
  github_data f = Err e → exn_cls e = AttributeError.
Proof.
  unfold github_data, mbind, pyres_mbind.
  destruct (py_get f (lit "SourceMetadata") (JObj [])) as [sm|e1] eqn:H1;
    cbn [pyres_bind].
  2: { intros [= <-]. by eapply py_get_error. }
  destruct (py_get sm (lit "Data") (JObj [])) as [data|e2] eqn:H2;
    cbn [pyres_bind].
  2: { intros [= <-]. by eapply py_get_error. }
  apply py_get_error.
Qed.

(** What the filter loop returns. *)
Lemma verified_loop_exact (findings : list json) :
  match verified_loop findings [] with
  | Ok verified =>
      verified = filter (λ f, passes_filter f = true) findings
      ∧ Forall (λ f, breaks_filter f = false) findings
  | Err e =>
      exn_cls e = AttributeError
      ∧ ∃ before f after,
          findings = before ++ f :: after
          ∧ Forall (λ f, breaks_filter f = false) before
          ∧ breaks_filter f = true
          ∧ github_data f = Err e
  end.
Proof.
  assert (Hgen : ∀ acc,
    match verified_loop findings acc with
    | Ok verified =>
        verified = acc ++ filter (λ f, passes_filter f = true) findings
        ∧ Forall (λ f, breaks_filter f = false) findings
    | Err e =>
        exn_cls e = AttributeError
        ∧ ∃ before f after,
            findings = before ++ f :: after
            ∧ Forall (λ f, breaks_filter f = false) before
            ∧ breaks_filter f = true
            ∧ github_data f = Err e
    end).
  { induction findings as [|entry rest IH]; intros acc.
    { simpl. by rewrite app_nil_r. }
    rewrite verified_loop_cons.
    assert (Hstep : ∀ acc' (keep : bool),
      breaks_filter entry = false →
      (keep = passes_filter entry) →
      acc' = (if keep then acc ++ [entry] else acc) →
      match verified_loop rest acc' with
      | Ok verified =>
          verified = acc ++ filter (λ f, passes_filter f = true) (entry :: rest)
          ∧ Forall (λ f, breaks_filter f = false) (entry :: rest)
      | Err e =>
          exn_cls e = AttributeError
          ∧ ∃ before f after,
              entry :: rest = before ++ f :: after
              ∧ Forall (λ f, breaks_filter f = false) before
              ∧ breaks_filter f = true
              ∧ github_data f = Err e
      end).
    { intros acc' keep Hnb Hkeep ->. specialize (IH (if keep then acc ++ [entry] else acc)).
      destruct (verified_loop rest _) as [verified|e].
      - destruct IH as [-> Hall]. split; [|by constructor].
        rewrite filter_cons. destruct keep.
        + rewrite decide_True by done. by rewrite <- app_assoc.
        + rewrite decide_False; [done|]. rewrite <- Hkeep. done.
      - destruct IH as (Hcls & before & f & after & -> & Hb & Hf & Hgh).
        split; [done|]. exists (entry :: before), f, after.
        split; [done|]. split; [by constructor|done]. }
    unfold breaks_filter, passes_filter in *.
    destruct (github_data entry) as [gh|e] eqn:Hgh.
    - destruct (isinstance_dict entry && truthy (verified_flag entry)
                && isinstance_dict gh) eqn:Hpass.
      + apply (Hstep _ true); [by rewrite andb_false_r|done|done].
      + apply (Hstep _ false); [by rewrite andb_false_r|done|done].
    - destruct (isinstance_dict entry && truthy (verified_flag entry)) eqn:Hd.
      + split; [by eapply github_data_error|].
        exists [], entry, rest. rewrite Hgh. by rewrite andb_true_r.
      + apply (Hstep _ false); [done|by rewrite andb_false_r|done]. }
  exact (Hgen []).
Qed.

(** X1. The filter loop either goes through the whole list, and then
    [verified] holds, in their order, exactly the findings that are dicts
    with a true flag and a dict at the end of their source-location chain;
    or it stops with the [AttributeError] of the first finding that has a
    true flag and a chain that cannot be read. *)
Theorem X1_verified_filter_exact (findings : list json) :
  match verified_loop findings [] with
  | Ok verified =>
      verified = filter (λ f, passes_filter f = true) findings
      ∧ Forall (λ f, breaks_filter f = false) findings
  | Err e =>
      exn_cls e = AttributeError
      ∧ ∃ before f after,
          findings = before ++ f :: after
          ∧ Forall (λ f, breaks_filter f = false) before
          ∧ breaks_filter f = true
          ∧ github_data f = Err e
  end.
Proof. apply verified_loop_exact. Qed.


(** ** The notifier *)

Lemma render_chunks_lookup domain chunks i :
  render_chunks domain (alert_header domain) chunks !! i =
    (λ c, header_at domain i ++ concat c) <$> chunks !! i.
Proof.
  destruct chunks as [|c cs]; [done|]. destruct i as [|i]; [done|].
  simpl. by rewrite list_lookup_fmap.
Qed.

Lemma chunks_length_le (chunks : list (list pystr)) :
  (∀ i c, chunks !! i = Some c → c ≠ []) →
  (length chunks ≤ length (concat chunks))%nat.
Proof.
  induction chunks as [|c cs IH]; intros Hne; [done|].
  simpl. rewrite length_app.
  assert (c ≠ []) by (by apply (Hne 0%nat)).
  assert (length cs ≤ length (concat cs))%nat
    by (apply IH; intros i c' Hc'; by apply (Hne (S i))).
  destruct c; [done|]. simpl. lia.
Qed.

(** X3. The notifier posts a message exactly when some secret has a block
    (a dict whose source-location chain reads through to a true permalink),
    and never more messages than there are blocks. *)
Theorem X3_alert_posts_iff_block (domain : pystr) (verified_secrets : list json)
    (w : World) :
  let r := _send_telegram_alert domain verified_secrets w in
  (events r = [] ↔ omap secret_block verified_secrets = [])
  ∧ (length (events r) ≤ length (omap secret_block verified_secrets))%nat.
Proof.
  cbv zeta.
  destruct (send_telegram_alert_chunks domain verified_secrets w)
    as (_ & _ & chunks & Hconcat & -> & Hchunks).
  assert (Hne : ∀ i c, chunks !! i = Some c → c ≠ []).
  { intros i c Hc. destruct (Hchunks i c Hc) as (init & b & -> & _).
    by destruct init. }
  rewrite <- Hconcat. split.
  - split.
    + intros Hnil. destruct chunks as [|c cs]; [done|]. discriminate Hnil.
    + intros Hnil. destruct chunks as [|c cs]; [done|].
      assert (c ≠ []) by (by apply (Hne 0%nat)).
      simpl in Hnil. apply app_eq_nil in Hnil as [? _]. done.
  - rewrite length_fmap.
    assert (Hlen : length (render_chunks domain (alert_header domain) chunks)
                   = length chunks).
    { destruct chunks; [done|]. simpl. by rewrite length_fmap. }
    rewrite Hlen. by apply chunks_length_le.
Qed.

(** X4. Every message the notifier posts is a header followed by blocks, and
    is longer than 3000 characters (or than its header, if that is longer) by
    at most the length of its last block. *)
Theorem X4_alert_message_length (domain : pystr) (verified_secrets : list json)
    (w : World) (text : pystr) :
  EvPost text ∈ events (_send_telegram_alert domain verified_secrets w) →
  ∃ h init b,
    (h = alert_header domain ∨ h = continued_header domain)
    ∧ text = h ++ concat init ++ b
    ∧ b ∈ omap secret_block verified_secrets
    ∧ len text ≤ Z.max 3000 (len h) + len b.
Proof.
  destruct (send_telegram_alert_chunks domain verified_secrets w)
    as (_ & _ & chunks & Hconcat & -> & Hchunks).
  intros Hin. apply list_elem_of_fmap in Hin as (t & [= <-] & Hin).
  apply list_elem_of_lookup in Hin as [i Hi].
  rewrite render_chunks_lookup in Hi.
  destruct (chunks !! i) as [c|] eqn:Hc; [|done]. injection Hi as <-.
  destruct (Hchunks i c Hc) as (init & b & -> & Hfits & _).
  exists (header_at domain i), init, b.
  split; [destruct i; [by left|by right]|].
  split; [by rewrite concat_snoc|].
  split.
  { rewrite <- Hconcat. apply list_elem_of_In, in_concat.
    exists (init ++ [b]). split.
    - apply list_elem_of_In. by eapply list_elem_of_lookup_2.
    - apply in_or_app. right. by left. }
  rewrite concat_snoc. unfold len in *.
  rewrite !length_app. rewrite !Nat2Z.inj_add.
  destruct (decide (init = [])) as [->|Hne].
  - simpl. lia.
  - assert (Hpos : (0 < length init)%nat) by (destruct init; [done|simpl; lia]).
    pose proof (Hfits (length init) (conj Hpos (le_n _))) as Hfit.
    rewrite take_ge in Hfit by done. unfold len in Hfit.
    rewrite length_app, Nat2Z.inj_add in Hfit. lia.
Qed.

(** ** The credential pool *)

Lemma usable_spec s now pat : usable s now pat = true ↔ ¬ cooling s now pat.
Proof.
  unfold usable, cooling. destruct (rate_limited_pats s !! pat) as [e|].
  - rewrite Z.gtb_ltb, negb_true_iff, Z.ltb_ge. split.
    + intros Hle (e' & [= <-] & Hlt). lia.
    + intros Hno. destruct (Z.le_gt_cases e now) as [|Hgt]; [done|].
      destruct Hno. exists e. split; [done|lia].
  - split; [|done]. by intros _ (e' & [=] & _).
Qed.

Lemma pat_loop_find n now s :
  (current_pat_index s < length (pats s))%nat →
  (n ≤ length (pats s))%nat →
  pat_loop n now s =
    match list_find (λ p, usable s now p = true)
            (take n (rotation (current_pat_index s) (pats s))) with
    | Some (k, pat) =>
        (Ok (Some pat),
         mkScanner (pats s) (completed_domains s)
           (delete pat (rate_limited_pats s))
           ((current_pat_index s + k + 1) `mod` length (pats s))%nat)
    | None =>
        (Ok None,
         set_current_pat_index
           ((current_pat_index s + n) `mod` length (pats s))%nat s)
    end.
Proof.
  revert s. induction n as [|n IH]; intros s Hidx Hn.
  { simpl. rewrite Nat.add_0_r, Nat.mod_small by done.
    by rewrite set_current_pat_index_id. }
  destruct (lookup_lt_is_Some_2 _ _ Hidx) as [a Ha].
  rewrite (rotation_head _ _ _ Ha). cbn [take list_find].
  case_decide as Hfree.
  - rewrite (pat_loop_free n now s a Ha) by (by apply usable_spec).
    rewrite Nat.add_0_r. done.
  - assert (Hcool : cooling s now a).
    { destruct (usable s now a) eqn:Hu; [done|].
      unfold usable in Hu. unfold cooling.
      destruct (rate_limited_pats s !! a) as [e|]; [|done].
      exists e. split; [done|].
      rewrite Z.gtb_ltb, negb_false_iff in Hu. by apply Z.ltb_lt. }
    rewrite (pat_loop_skip n now s a Ha Hcool).
    rewrite IH; [|simpl; apply Nat.mod_upper_bound; lia|simpl; lia].
    change (pats (advance s)) with (pats s).
    change (current_pat_index (advance s))
      with ((current_pat_index s + 1) `mod` length (pats s))%nat.
    rewrite (rotation_next _ _ _ Ha).
    rewrite take_app_le
      by (rewrite length_app, length_drop, length_take; lia).
    change (λ p, usable (advance s) now p = true)
      with (λ p, usable s now p = true).
    destruct (list_find _ (take n _)) as [[k pat]|]; simpl.
    + assert (Hmod :
        (((current_pat_index s + 1) `mod` length (pats s) + k + 1)
           `mod` length (pats s)
         = (current_pat_index s + S k + 1) `mod` length (pats s))%nat).
      { rewrite <- Nat.add_assoc, Nat.Div0.add_mod_idemp_l. f_equal. lia. }
      by rewrite Hmod.
    + unfold advance, set_current_pat_index. simpl. do 2 f_equal.
      rewrite Nat.Div0.add_mod_idemp_l. f_equal. lia.
Qed.

(** X5. A call of the pool hands out the first credential, in circular order
    from the cursor, that has no running cool-down; it forgets that
    credential's ended cool-down, leaves the other cool-downs alone and puts
    the cursor just behind the credential.  When there is none it returns
    none and leaves the pool as it was. *)
Theorem X5_next_available_is_first_usable (s : GitHubScanner) (now : Z) :
  (current_pat_index s < length (pats s))%nat →
  match list_find (λ p, usable s now p = true)
          (rotation (current_pat_index s) (pats s)) with
  | Some (k, pat) =>
      get_available_pat now s =
        (Ok (Some pat),
         mkScanner (pats s) (completed_domains s)
           (delete pat (rate_limited_pats s))
           ((current_pat_index s + k + 1) `mod` length (pats s))%nat)
  | None => get_available_pat now s = (Ok None, s)
  end.
Proof.
  intros Hidx. unfold get_available_pat.
  rewrite (pat_loop_find _ now s Hidx (le_n _)).
  rewrite take_ge
    by (unfold rotation; rewrite length_app, length_drop, length_take; lia).
  destruct (list_find _ _) as [[k pat]|]; [done|].
  rewrite <- (Nat.mul_1_l (length (pats s))) at 1.
  rewrite Nat.Div0.mod_add, Nat.mod_small by done.
  by rewrite set_current_pat_index_id.
Qed.

(** ** The retry loop *)

Lemma engine_starts_posts (texts : list pystr) :
  engine_starts (map EvPost texts) = [].
Proof. induction texts as [|t texts IH]; [done|exact IH]. Qed.

Lemma engine_starts_success domain output w :
  engine_starts (events (scan_success domain output w)) = [].
Proof.
  rewrite scan_success_eval. cbv zeta.
  destruct (verified_loop _ []) as [verified|e]; [|done].
  cbn [events]. change (engine_starts (?x :: ?l)) with (engine_starts l).
  rewrite engine_starts_app. unfold verified_events.
  destruct verified as [|v vs]; [done|].
  destruct (send_telegram_alert_chunks domain (v :: vs)
              (write_verified domain (v :: vs)
                 (write_raw domain (omap valid_record (splitlines output)) w)))
    as (_ & _ & chunks & _ & -> & _).
  change (engine_starts (?x :: ?l)) with (engine_starts l) at 1.
  by rewrite engine_starts_posts.
Qed.

Lemma scan_loop_starts_bounded fuel domain attempts w :
  (length (engine_starts (events (scan_loop fuel domain attempts w)))
   ≤ Z.to_nat (MAX_RETRIES_PER_DOMAIN - attempts))%nat.
Proof.
  revert attempts w. induction fuel as [|fuel IH]; intros attempts w.
  { simpl. lia. }
  rewrite scan_loop_step.
  destruct (Z.ltb_spec attempts MAX_RETRIES_PER_DOMAIN) as [Hlt|Hge];
    [|simpl; lia].
  cbv zeta. unfold MAX_RETRIES_PER_DOMAIN in *.
  set (w0 := set_self _ w).
  assert (Hwait :
    (length (engine_starts (events (prepend [EvSleep PAT_COOLDOWN]
       (scan_loop fuel domain attempts (set_clock (clock w0 + PAT_COOLDOWN) w0)))))
     ≤ Z.to_nat (3 - attempts))%nat).
  { unfold prepend. cbn [events]. rewrite engine_starts_app. apply IH. }
  assert (Hretry : ∀ w1 pat,
    (length (engine_starts (events (prepend [EvRun domain pat; EvSleep 2]
       (scan_loop fuel domain (attempts + 1) w1))))
     ≤ Z.to_nat (3 - attempts))%nat).
  { intros w1 pat. unfold prepend. cbn [events].
    rewrite engine_starts_app, length_app.
    specialize (IH (attempts + 1) w1). simpl length at 1. lia. }
  destruct (_ .1) as [[[|c pat]|]|e]; [exact Hwait| |exact Hwait|simpl; lia].
  destruct (engine (runs w0) domain (c :: pat)) as [stdout|stderr|].
  - unfold prepend. cbn [events].
    rewrite engine_starts_app, engine_starts_success. simpl. lia.
  - destruct (str_contains _ _); [apply Hretry|].
    destruct (str_eqb _ _); [apply Hretry|simpl; lia].
  - simpl. lia.
Qed.

(** X6. Whatever the engine does and however long the loop is let run, one
    scan of a target starts the engine at most 3 times, and only for that
    target. *)
Theorem X6_at_most_three_engine_runs (fuel : nat) (domain : pystr) (w : World) :
  (length (engine_starts (events (scan_domain fuel domain w))) ≤ 3)%nat
  ∧ ∀ d pat, EvRun d pat ∈ events (scan_domain fuel domain w) → d = domain.
Proof.
  unfold scan_domain. split; [apply (scan_loop_starts_bounded fuel domain 0 w)|].
  intros d pat Hin.
  destruct (scan_loop_shape fuel domain 0 w) as (pre & w1 & Hpre & _ & Hr).
  rewrite Forall_forall in Hpre.
  assert (Hq : EvRun d pat ∈ pre → d = domain) by (intros H; exact (Hpre _ H)).
  destruct Hr as [[Hr|[Hr|[e Hr]]]|(stdout & p & n & _ & Hr)];
    rewrite Hr in Hin; cbn [events prepend] in Hin; try (by apply Hq).
  apply elem_of_app in Hin as [Hin|Hin]; [by apply Hq|].
  pose proof (engine_starts_success domain stdout w1) as Hnone.
  apply list_elem_of_split in Hin as (l1 & l2 & Heq).
  rewrite Heq, engine_starts_app in Hnone.
  apply app_eq_nil in Hnone as [_ Hnone]. discriminate Hnone.
Qed.

Lemma pool_ready_mono w w' :
  pool_ready w →
  pats (self w') = pats (self w) →
  current_pat_index (self w') = current_pat_index (self w) →
  rate_limited_pats (self w') = rate_limited_pats (self w) →
  clock w ≤ clock w' →
  pool_ready w'.
Proof.
  intros (Hidx & Hne & Hexp) Hp Hi Hrl Hclock.
  repeat split; rewrite ?Hp, ?Hi, ?Hrl; [done..|].
  intros pat e He. specialize (Hexp pat e He). lia.
Qed.

Lemma pool_ready_after_run w : pool_ready w → pool_ready (after_run w).
Proof. intros H. apply (pool_ready_mono w); [done..|]. simpl. lia. Qed.

Lemma pool_ready_marked w pat :
  pool_ready w →
  pool_ready (set_clock (clock (mark_rate_limited pat w) + 2) (mark_rate_limited pat w)).
Proof.
  intros (Hidx & Hne & Hexp). repeat split; simpl; [done..|].
  intros p e He. unfold PAT_COOLDOWN in *.
  destruct (decide (p = pat)) as [->|Hp].
  - rewrite lookup_insert_eq in He. injection He as <-. lia.
  - rewrite lookup_insert_ne in He by done. specialize (Hexp p e He). lia.
Qed.

Lemma pool_ready_success domain output w :
  pool_ready w → pool_ready (world (scan_success domain output w)).
Proof.
  intros H. rewrite scan_success_eval. cbv zeta.
  destruct (verified_loop _ []) as [verified|e]; cbn [world].
  - apply (pool_ready_mono w); [done|by destruct verified..].
  - by apply (pool_ready_mono w).
Qed.

(** The pool invariant is kept by the retry loop. *)
Lemma scan_loop_pool_ready fuel domain attempts w :
  pool_ready w → pool_ready (world (scan_loop fuel domain attempts w)).
Proof.
  revert attempts w. induction fuel as [|fuel IH]; intros attempts w Hready;
    [done|].
  rewrite scan_loop_step. destruct (_ <? _); [|done]. cbv zeta.
  pose proof (pool_ready_get w Hready) as Hready0.
  set (w0 := set_self _ w) in *.
  assert (Hwait : pool_ready (world (prepend [EvSleep PAT_COOLDOWN]
            (scan_loop fuel domain attempts (set_clock (clock w0 + PAT_COOLDOWN) w0))))).
  { cbn [world prepend]. apply IH. by apply pool_ready_wait. }
  destruct (_ .1) as [[[|c pat]|]|e]; [exact Hwait| |exact Hwait|done].
  pose proof (pool_ready_after_run w0 Hready0) as Hready1.
  destruct (engine (runs w0) domain (c :: pat)) as [stdout|stderr|]; [| |done].
  - cbn [world prepend]. by apply pool_ready_success.
  - destruct (str_contains _ _).
    + cbv zeta. cbn [world prepend]. apply IH. by apply pool_ready_marked.
    + destruct (str_eqb _ _); [|done]. cbv zeta. cbn [world prepend].
      apply IH. apply (pool_ready_mono (after_run w0)); [done..|]. simpl. lia.
Qed.

(** More fuel does not change a scan that has ended. *)
Lemma scan_loop_fuel_mono fuel domain attempts w :
  out (scan_loop fuel domain attempts w) ≠ OutOfFuel →
  scan_loop (S fuel) domain attempts w = scan_loop fuel domain attempts w.
Proof.
  revert attempts w. induction fuel as [|fuel IH]; intros attempts w Hout;
    [done|].
  rewrite (scan_loop_step (S fuel)). rewrite scan_loop_step in Hout |- *.
  destruct (_ <? _); [|done]. cbv zeta in Hout |- *.
  set (w0 := set_self _ w) in *.
  destruct (_ .1) as [[[|c pat]|]|e]; [| | |done].
  - unfold prepend in Hout |- *. cbn [out] in Hout. by rewrite IH.
  - destruct (engine (runs w0) domain (c :: pat)) as [stdout|stderr|]; [done| |done].
    destruct (str_contains _ _).
    + cbv zeta in Hout |- *. unfold prepend in Hout |- *. cbn [out] in Hout.
      by rewrite IH.
    + destruct (str_eqb _ _); [|done].
      cbv zeta in Hout |- *. unfold prepend in Hout |- *. cbn [out] in Hout.
      by rewrite IH.
  - unfold prepend in Hout |- *. cbn [out] in Hout. by rewrite IH.
Qed.

Lemma scan_loop_fuel_more extra fuel domain attempts w :
  out (scan_loop fuel domain attempts w) ≠ OutOfFuel →
  scan_loop (extra + fuel) domain attempts w = scan_loop fuel domain attempts w.
Proof.
  intros Hout. induction extra as [|extra IH]; [done|].
  change (S extra + fuel)%nat with (S (extra + fuel)).
  rewrite scan_loop_fuel_mono; [done|]. by rewrite IH.
Qed.

Lemma scan_success_ends domain output w :
  out (scan_success domain output w) ≠ OutOfFuel.
Proof.
  rewrite scan_success_eval. cbv zeta. by destruct (verified_loop _ []).
Qed.

(** With [k] attempts left, [2 k + 1] rounds are enough, whatever the engine
    does: a round that finds every credential cooling is followed by one
    that finds a credential. *)
Lemma scan_loop_ends domain (k : nat) :
  ∀ fuel attempts w,
    pool_ready w →
    attempts = MAX_RETRIES_PER_DOMAIN - Z.of_nat k →
    (2 * k + 1 ≤ fuel)%nat →
    out (scan_loop fuel domain attempts w) ≠ OutOfFuel.
Proof.
  induction k as [|k IH]; intros fuel attempts w Hready Hatt Hfuel.
  { destruct fuel as [|fuel]; [lia|]. rewrite scan_loop_step.
    destruct (Z.ltb_spec attempts MAX_RETRIES_PER_DOMAIN); [lia|done]. }
  assert (Hlt : attempts < MAX_RETRIES_PER_DOMAIN) by lia.
  assert (Hround : ∀ f w1 c pat,
    (2 * k + 1 ≤ f)%nat → pool_ready w1 →
    (get_available_pat (clock w1) (self w1)).1 = Ok (Some (c :: pat)) →
    out (scan_loop (S f) domain attempts w1) ≠ OutOfFuel).
  { intros f w1 c pat Hf Hready1 Hsome. rewrite scan_loop_step.
    destruct (Z.ltb_spec attempts MAX_RETRIES_PER_DOMAIN); [|lia].
    cbv zeta. rewrite Hsome.
    pose proof (pool_ready_after_run _ (pool_ready_get w1 Hready1)) as Hready2.
    set (w0 := set_self _ w1) in *.
    destruct (engine (runs w0) domain (c :: pat)) as [stdout|stderr|]; [| |done].
    - cbn [out prepend]. apply scan_success_ends.
    - destruct (str_contains _ _).
      + cbv zeta. cbn [out prepend].
        apply IH; [by apply pool_ready_marked|lia|lia].
      + destruct (str_eqb _ _); [|done]. cbv zeta. cbn [out prepend].
        apply IH; [|lia|lia].
        apply (pool_ready_mono (after_run w0)); [done..|]. simpl. lia. }
  destruct fuel as [|fuel]; [lia|].
  destruct (get_cases w Hready) as [Hnone|(c & pat & Hsome)].
  - rewrite (wait_round fuel domain attempts w Hlt Hnone).
    pose proof (pool_ready_get w Hready) as Hready0.
    set (w0 := set_self (get_available_pat (clock w) (self w)).2 w) in *.
    destruct (pool_ready_wait w0 Hready0) as [Hready1 Hfree].
    change (clock w) with (clock w0).
    destruct (get_some_when_free _ Hready1 Hfree) as (c & pat & Hsome).
    destruct fuel as [|fuel]; [lia|]. cbn [out prepend].
    apply (Hround fuel _ c pat); [lia|done..].
  - apply (Hround fuel w c pat); [lia|done..].
Qed.

(** A scan ends within 7 rounds. *)
Lemma scan_domain_ends (fuel : nat) (domain : pystr) (w : World) :
  pool_ready w →
  (7 ≤ fuel)%nat →
  out (scan_domain fuel domain w) ≠ OutOfFuel
  ∧ scan_domain fuel domain w = scan_domain 7 domain w
  ∧ pool_ready (world (scan_domain fuel domain w)).
Proof.
  intros Hready Hfuel. unfold scan_domain.
  assert (H7 : out (scan_loop 7 domain 0 w) ≠ OutOfFuel)
    by (apply (scan_loop_ends domain 3); [done|done|lia]).
  assert (Heq : scan_loop fuel domain 0 w = scan_loop 7 domain 0 w).
  { replace fuel with ((fuel - 7) + 7)%nat by lia. by apply scan_loop_fuel_more. }
  rewrite Heq. split; [done|]. split; [done|]. by apply scan_loop_pool_ready.
Qed.

(** X7. From a pool that satisfies the pool invariant, one scan of a target
    ends within 7 rounds of its loop whatever the engine does: it never waits
    for a credential twice in a row.  Letting the loop run longer changes
    nothing, and the pool invariant holds again when the scan has ended. *)
Theorem X7_scan_ends (fuel : nat) (domain : pystr) (w : World) :
  pool_ready w →
  (7 ≤ fuel)%nat →
  out (scan_domain fuel domain w) ≠ OutOfFuel
  ∧ scan_domain fuel domain w = scan_domain 7 domain w
  ∧ pool_ready (world (scan_domain fuel domain w)).
Proof. apply scan_domain_ends. Qed.

(** ** The pass over the target list *)

Lemma run_loop_ends fuel domains w :
  pool_ready w →
  (7 ≤ fuel)%nat →
  out (run_loop fuel domains w) ≠ OutOfFuel
  ∧ run_loop fuel domains w = run_loop 7 domains w
  ∧ pool_ready (world (run_loop fuel domains w)).
Proof.
  intros Hready Hfuel. revert w Hready.
  induction domains as [|domain rest IH]; intros w Hready; [done|].
  rewrite !run_loop_cons. case_bool_decide; [by apply IH|]. cbv zeta.
  destruct (scan_domain_ends fuel domain w Hready Hfuel) as (Hout & Heq & Hpool).
  rewrite Heq in Hout, Hpool |- *.
  destruct (out (scan_domain 7 domain w)) eqn:Ho; [|by rewrite ?Ho..].
  set (w1 := set_clock _ _).
  assert (Hready1 : pool_ready w1).
  { apply (pool_ready_mono (world (scan_domain 7 domain w))); [done..|].
    simpl. lia. }
  destruct (IH w1 Hready1) as (Hout1 & Heq1 & Hpool1).
  cbn [out world prepend]. split; [done|]. split; [by rewrite Heq1|done].
Qed.

(** X8. From a pool that satisfies the pool invariant, a pass over the
    target list ends, whatever the targets and whatever the engine does, as
    soon as each scan is given 7 rounds; giving more changes nothing, and
    the pool invariant holds again after the pass. *)
Theorem X8_pass_ends (fuel : nat) (w : World) :
  pool_ready w →
  (7 ≤ fuel)%nat →
  out (run fuel w) ≠ OutOfFuel
  ∧ run fuel w = run 7 w
  ∧ pool_ready (world (run fuel w)).
Proof.
  intros Hready Hfuel. rewrite !run_eval.
  destruct (fs w !! DOMAINS_FILE) as [content|]; [|done].
  by apply run_loop_ends.
Qed.

(** ** Lines and names *)

Lemma lstrip_unspaced x : unspaced_head (lstrip x).
Proof.
  induction x as [|c x IH]; [done|]. simpl.
  destruct (isspace c) eqn:Hc; [exact IH|exact Hc].
Qed.

Lemma lstrip_fix x : unspaced_head x → lstrip x = x.
Proof. destruct x as [|c x]; [done|]. simpl. by intros ->. Qed.

Lemma lstrip_suffix x : ∃ spaces, x = spaces ++ lstrip x.
Proof.
  induction x as [|c x [spaces IH]]; [by exists []|]. simpl.
  destruct (isspace c); [|by exists []].
  exists (c :: spaces). simpl. by rewrite <- IH.
Qed.

Lemma lstrip_Forall (P : N → Prop) x : Forall P x → Forall P (lstrip x).
Proof.
  intros H. destruct (lstrip_suffix x) as [spaces Heq].
  rewrite Heq in H. by apply Forall_app in H as [_ H].
Qed.

Lemma strip_Forall (P : N → Prop) x : Forall P x → Forall P (strip x).
Proof.
  intros H. unfold strip.
  apply Forall_rev, lstrip_Forall, Forall_rev, lstrip_Forall, H.
Qed.

Lemma unspaced_head_prefix x y : x ≠ [] → unspaced_head (x ++ y) → unspaced_head x.
Proof. by destruct x. Qed.

(** [strip] leaves no white space at either end. *)
Lemma strip_unspaced x : unspaced_head (strip x) ∧ unspaced_head (rev (strip x)).
Proof.
  unfold strip. rewrite rev_involutive. split; [|apply lstrip_unspaced].
  destruct (lstrip_suffix (rev (lstrip x))) as [spaces Heq].
  set (u := lstrip (rev (lstrip x))) in *.
  destruct (decide (rev u = [])) as [->|Hne]; [done|].
  apply (unspaced_head_prefix _ (rev spaces) Hne).
  rewrite <- rev_app_distr, <- Heq, rev_involutive. apply lstrip_unspaced.
Qed.

Lemma strip_fix x : unspaced_head x → unspaced_head (rev x) → strip x = x.
Proof.
  intros H1 H2. unfold strip.
  by rewrite (lstrip_fix x H1), (lstrip_fix _ H2), rev_involutive.
Qed.

Lemma strip_idempotent x : strip (strip x) = strip x.
Proof. destruct (strip_unspaced x). by apply strip_fix. Qed.

(** A white space at the end does not count. *)
Lemma strip_snoc_space x c : isspace c = true → strip (x ++ [c]) = strip x.
Proof.
  intros Hc. unfold strip. f_equal.
  assert (Hl : lstrip (x ++ [c]) = match lstrip x with
                                   | [] => []
                                   | _ => lstrip x ++ [c]
                                   end).
  { induction x as [|a x IH]; simpl; [by rewrite Hc|].
    destruct (isspace a); [exact IH|done]. }
  rewrite Hl. destruct (lstrip x) as [|a t]; [done|].
  rewrite rev_app_distr. simpl. by rewrite Hc.
Qed.

Lemma universal_newlines_cons c x :
  universal_newlines (c :: x) =
    if (c =? 13)%N then
      10%N :: universal_newlines
                (match x with
                 | c' :: x' => if (c' =? 10)%N then x' else x
                 | [] => x
                 end)
    else c :: universal_newlines x.
Proof.
  cbn [universal_newlines]. destruct (c =? 13)%N; [|done].
  destruct x as [|c' x']; [done|].
  destruct (N.eqb_spec c' 10) as [->|Hne]; [done|].
  destruct c' as [|p]; [done|].
  do 4 (try destruct p as [p|p|]); done.
Qed.

Lemma universal_newlines_no_cr_aux (n : nat) : ∀ x,
  (length x ≤ n)%nat → Forall (λ c, c ≠ 13%N) (universal_newlines x).
Proof.
  induction n as [|n IH]; intros x Hlen.
  { destruct x; [constructor|simpl in Hlen; lia]. }
  destruct x as [|c x]; [constructor|]. cbn [length] in Hlen.
  rewrite universal_newlines_cons.
  destruct (N.eqb_spec c 13) as [->|Hc].
  - constructor; [done|]. apply IH.
    destruct x as [|c' x']; [simpl; lia|].
    destruct (c' =? 10)%N; cbn [length] in *; lia.
  - constructor; [done|]. apply IH. lia.
Qed.

Lemma universal_newlines_no_cr x : Forall (λ c, c ≠ 13%N) (universal_newlines x).
Proof. by apply (universal_newlines_no_cr_aux (length x)). Qed.

Lemma file_lines_go_shape x : ∀ cur,
  Forall (λ c, c ≠ 13%N) x →
  Forall (λ c, c ≠ 10%N ∧ c ≠ 13%N) cur →
  Forall (λ line, ∃ body, (line = body ++ [10%N] ∨ line = body)
                          ∧ Forall (λ c, c ≠ 10%N ∧ c ≠ 13%N) body)
         (file_lines_go cur x).
Proof.
  induction x as [|c x IH]; intros cur Hx Hcur.
  { simpl. destruct cur as [|c cur]; [constructor|].
    constructor; [|constructor]. exists (rev (c :: cur)).
    split; [by right|by apply Forall_rev]. }
  apply Forall_cons in Hx as [Hc Hx]. simpl.
  destruct (N.eqb_spec c 10) as [->|Hne].
  - constructor; [|by apply IH].
    exists (rev cur). split; [by left|by apply Forall_rev].
  - apply IH; [done|]. by constructor.
Qed.

Lemma stripped_lines_clean content : Forall clean (stripped_lines content).
Proof.
  unfold stripped_lines, file_lines. apply Forall_fmap, Forall_forall.
  intros line Hin. apply list_elem_of_filter in Hin as [Hne Hin].
  pose proof (file_lines_go_shape (universal_newlines content) []
                (universal_newlines_no_cr content) (Forall_nil_2 _)) as Hshape.
  rewrite Forall_forall in Hshape.
  destruct (Hshape line Hin) as (body & Hline & Hbody).
  split; [done|]. split; [apply strip_idempotent|].
  destruct Hline as [->| ->]; [rewrite strip_snoc_space by done|];
    by apply strip_Forall.
Qed.

Lemma universal_newlines_id x :
  Forall (λ c, c ≠ 13%N) x → universal_newlines x = x.
Proof.
  induction x as [|c x IH]; intros H; [done|].
  apply Forall_cons in H as [Hc Hx]. rewrite universal_newlines_cons.
  destruct (N.eqb_spec c 13); [done|]. by rewrite IH.
Qed.

Lemma file_lines_go_line d : ∀ cur rest,
  Forall (λ c, c ≠ 10%N) d →
  file_lines_go cur (d ++ 10%N :: rest) =
    (rev cur ++ d ++ [10%N]) :: file_lines_go [] rest.
Proof.
  induction d as [|c d IH]; intros cur rest Hd.
  { simpl. done. }
  apply Forall_cons in Hd as [Hc Hd]. simpl.
  destruct (N.eqb_spec c 10); [done|].
  rewrite IH by done. simpl. by rewrite <- app_assoc.
Qed.

Lemma ledger_text_snoc ds d :
  ledger_text (ds ++ [d]) = ledger_text ds ++ (d ++ [10%N]).
Proof. unfold ledger_text. by rewrite map_app, concat_app; simpl; rewrite app_nil_r. Qed.

Lemma clean_strip_line d : clean d → strip (d ++ [10%N]) = d.
Proof. intros (_ & Hfix & _). by rewrite strip_snoc_space. Qed.

Lemma file_lines_ledger_text ds :
  Forall clean ds →
  file_lines (ledger_text ds) = map (λ d, d ++ [10%N]) ds.
Proof.
  intros Hds. unfold file_lines.
  rewrite universal_newlines_id.
  2: { unfold ledger_text. apply Forall_concat, Forall_fmap.
       eapply Forall_impl; [exact Hds|]. intros d (_ & _ & Hd). simpl.
       apply Forall_app. split; [|by repeat constructor].
       eapply Forall_impl; [exact Hd|]. by intros c [_ ?]. }
  induction Hds as [|d ds (Hne & Hfix & Hd) Hds IH]; [done|].
  unfold ledger_text in *. simpl. rewrite <- app_assoc. simpl.
  rewrite file_lines_go_line; [by rewrite IH|].
  eapply Forall_impl; [exact Hd|]. by intros c [? _].
Qed.

(** X10. Every name read from a list file (credential, target or completed
    target) is not empty, has no white space at either end and no line feed
    or carriage return inside; reading blank or white-space lines gives no
    name. *)
Theorem X10_names_are_clean (content : pystr) :
  Forall clean (stripped_lines content).
Proof. apply stripped_lines_clean. Qed.

Lemma stripped_lines_ledger_text ds :
  Forall clean ds → stripped_lines (ledger_text ds) = ds.
Proof.
  intros Hds. unfold stripped_lines. rewrite file_lines_ledger_text by done.
  induction Hds as [|d ds Hd Hds IH]; [done|].
  pose proof (clean_strip_line d Hd) as Hs. destruct Hd as (Hne & _).
  cbn [map]. rewrite filter_cons, Hs, decide_True by done.
  cbn [map]. by rewrite Hs, IH.
Qed.

(** X11. Writing names the way the ledger is written, each followed by a
    line feed, and reading the text back the way the list files are read
    gives the same names in the same order, for names as the list files give
    them. *)
Theorem X11_ledger_round_trip (ds : list pystr) :
  Forall clean ds → stripped_lines (ledger_text ds) = ds.
Proof. apply stripped_lines_ledger_text. Qed.

(** ** Construction *)

(** X9. When [__init__] returns, the scanner holds the non-blank lines of
    the credential file, stripped, none of them empty; the completed set read
    from the ledger; no cool-down; the cursor on the first credential.  It
    satisfies the pool invariant, and nothing was written or posted. *)
Theorem X9_init_state (w : World) :
  out (__init__ w) = Ret tt →
  let s := self (world (__init__ w)) in
  (∃ content, fs w !! PATS_FILE = Some content ∧ pats s = stripped_lines content)
  ∧ Forall clean (pats s)
  ∧ completed_domains s = ledger_set w
  ∧ rate_limited_pats s = ∅
  ∧ current_pat_index s = 0%nat
  ∧ pool_ready (world (__init__ w))
  ∧ fs (world (__init__ w)) = fs w
  ∧ events (__init__ w) = [].
Proof.
  intros Hout. pose proof (init_pool_ready w Hout) as Hready. cbv zeta.
  revert Hout Hready. rewrite init_eval, load_pats_eval.
  destruct (fs w !! PATS_FILE) as [content|]; [|done].
  pose proof (stripped_lines_clean content) as Hclean.
  destruct (stripped_lines content) as [|pat pats] eqn:Hlines; [done|].
  intros _ Hready. cbn [out world events self set_self].
  split; [by exists content|]. done.
Qed.

(** ** Files *)

Lemma path_join_last a b : b ≠ [] → last (path_join a b) = last b.
Proof.
  intros Hb. unfold path_join. destruct (startswith b (lit "/")); [done|].
  assert (Hlast : ∀ x, last (x ++ b) = last b).
  { intros x. rewrite last_app. destruct (last b) eqn:Hl; [done|].
    by apply last_None in Hl. }
  destruct a as [|c a]; [done|]. case_bool_decide; [apply Hlast|].
  rewrite app_assoc. apply Hlast.
Qed.

Lemma output_file_last domain : last (output_file domain) = Some 110%N.
Proof.
  unfold output_file. rewrite path_join_last by (by destruct domain).
  by rewrite last_app.
Qed.

Lemma verified_file_last domain : last (verified_file domain) = Some 110%N.
Proof.
  unfold verified_file. rewrite path_join_last by (by destruct domain).
  by rewrite last_app.
Qed.

Lemma text_files_last :
  last PATS_FILE = Some 116%N ∧ last DOMAINS_FILE = Some 116%N
  ∧ last COMPLETED_FILE = Some 116%N.
Proof. repeat split; vm_compute; reflexivity. Qed.




(** ** The ledger *)

Lemma output_file_not_ledger domain : COMPLETED_FILE ≠ output_file domain.
Proof.
  intros Heq. apply (f_equal last) in Heq.
  rewrite output_file_last in Heq. destruct text_files_last as (_ & _ & Hl).
  rewrite Hl in Heq. done.
Qed.

Lemma verified_file_not_ledger domain : COMPLETED_FILE ≠ verified_file domain.
Proof.
  intros Heq. apply (f_equal last) in Heq.
  rewrite verified_file_last in Heq. destruct text_files_last as (_ & _ & Hl).
  rewrite Hl in Heq. done.
Qed.

Lemma scan_success_ledger domain output w :
  (out (scan_success domain output w) = Ret true
   ∧ fs (world (scan_success domain output w)) !! COMPLETED_FILE =
       Some (default [] (fs w !! COMPLETED_FILE) ++ (domain ++ [10%N]))
   ∧ completed_domains (self (world (scan_success domain output w))) =
       {[domain]} ∪ completed_domains (self w))
  ∨ ((∃ e, out (scan_success domain output w) = Raise e)
     ∧ fs (world (scan_success domain output w)) !! COMPLETED_FILE =
         fs w !! COMPLETED_FILE
     ∧ completed_domains (self (world (scan_success domain output w))) =
         completed_domains (self w)).
Proof.
  pose proof (output_file_not_ledger domain) as H1.
  pose proof (verified_file_not_ledger domain) as H2.
  rewrite scan_success_eval. cbv zeta.
  destruct (verified_loop _ []) as [verified|e]; [left|right]; cbn.
  - split; [done|]. rewrite lookup_insert_eq. split; [|by destruct verified].
    destruct verified; cbn; rewrite ?lookup_insert_ne by done; done.
  - split; [by exists e|]. by rewrite lookup_insert_ne.
Qed.

Lemma scan_loop_ledger fuel domain attempts w :
  let r := scan_loop fuel domain attempts w in
  (out r = Ret true
   ∧ fs (world r) !! COMPLETED_FILE =
       Some (default [] (fs w !! COMPLETED_FILE) ++ (domain ++ [10%N]))
   ∧ completed_domains (self (world r)) = {[domain]} ∪ completed_domains (self w))
  ∨ (out r ≠ Ret true
     ∧ fs (world r) !! COMPLETED_FILE = fs w !! COMPLETED_FILE
     ∧ completed_domains (self (world r)) = completed_domains (self w)).
Proof.
  cbv zeta.
  destruct (scan_loop_shape fuel domain attempts w)
    as (pre & w1 & _ & (Hfs & Hcd & _) & Hr).
  destruct Hr as [[->|[->|[e ->]]]|(stdout & pat & n & _ & ->)];
    cbn [out world prepend]; try (right; by rewrite Hfs, Hcd).
  destruct (scan_success_ledger domain stdout w1)
    as [(Ho & Hl & Hc)|([e Ho] & Hl & Hc)]; rewrite Ho, Hl, Hc, Hfs, Hcd;
    [by left|by right].
Qed.


Lemma ledger_set_default w :
  ledger_set w = list_to_set (stripped_lines (default [] (fs w !! COMPLETED_FILE))).
Proof. unfold ledger_set. by destruct (fs w !! COMPLETED_FILE). Qed.

Lemma ledger_ok_set w ds :
  Forall clean ds → default [] (fs w !! COMPLETED_FILE) = ledger_text ds →
  ledger_set w = list_to_set ds.
Proof.
  intros Hds Htext. by rewrite ledger_set_default, Htext, stripped_lines_ledger_text.
Qed.

(** The ledger invariant over one scan of a clean target. *)
Lemma scan_loop_persists fuel domain attempts w :
  clean domain →
  ledger_ok w → completed_domains (self w) ⊆ ledger_set w →
  ledger_ok (world (scan_loop fuel domain attempts w))
  ∧ completed_domains (self (world (scan_loop fuel domain attempts w)))
    ⊆ ledger_set (world (scan_loop fuel domain attempts w)).
Proof.
  intros Hclean (ds & Hds & Htext) Hsub.
  destruct (scan_loop_ledger fuel domain attempts w)
    as [(_ & Hledger & Hset)|(_ & Hledger & Hset)].
  - assert (Hds' : Forall clean (ds ++ [domain]))
      by (apply Forall_app; split; [done|by constructor]).
    assert (Htext' : default [] (fs (world (scan_loop fuel domain attempts w))
                                  !! COMPLETED_FILE) = ledger_text (ds ++ [domain])).
    { by rewrite Hledger, ledger_text_snoc, Htext. }
    split; [by exists (ds ++ [domain])|].
    rewrite Hset, (ledger_ok_set _ _ Hds' Htext').
    rewrite (ledger_ok_set _ _ Hds Htext) in Hsub.
    rewrite list_to_set_app_L. intros x Hx. apply elem_of_union.
    apply elem_of_union in Hx as [Hx|Hx]; [right|left; by apply Hsub].
    apply elem_of_singleton in Hx as ->.
    apply elem_of_list_to_set, list_elem_of_singleton. reflexivity.
  - assert (Htext' : default [] (fs (world (scan_loop fuel domain attempts w))
                                  !! COMPLETED_FILE) = ledger_text ds)
      by (by rewrite Hledger).
    split; [by exists ds|].
    rewrite Hset, (ledger_ok_set _ _ Hds Htext').
    by rewrite (ledger_ok_set _ _ Hds Htext) in Hsub.
Qed.

Lemma run_loop_persists fuel domains w :
  Forall clean domains →
  ledger_ok w → completed_domains (self w) ⊆ ledger_set w →
  ledger_ok (world (run_loop fuel domains w))
  ∧ completed_domains (self (world (run_loop fuel domains w)))
    ⊆ ledger_set (world (run_loop fuel domains w)).
Proof.
  intros Hclean. revert w.
  induction Hclean as [|d rest Hd Hrest IH]; intros w Hok Hsub; [done|].
  rewrite run_loop_cons. case_bool_decide; [by apply IH|]. cbv zeta.
  destruct (scan_loop_persists fuel d 0 w Hd Hok Hsub) as [Hok1 Hsub1].
  fold (scan_domain fuel d w) in Hok1, Hsub1.
  destruct (out (scan_domain fuel d w)); [|done..].
  cbn [world prepend]. by apply IH.
Qed.

(** X14. When the ledger holds the lines the program wrote and every
    completed target of the scanner is in it, the same is true after a pass
    over the target list.  So a process started later on the files the pass
    has left never starts the engine for a target the pass has completed. *)
Theorem X14_completion_survives_restart (fuel : nat) (w : World) :
  ledger_ok w →
  completed_domains (self w) ⊆ ledger_set w →
  ledger_ok (world (run fuel w))
  ∧ completed_domains (self (world (run fuel w))) ⊆ ledger_set (world (run fuel w))
  ∧ ∀ d later cycles' fuel',
      d ∈ completed_domains (self (world (run fuel w))) →
      fs later = fs (world (run fuel w)) →
      ∀ pat, EvRun d pat ∉ events (main cycles' fuel' later).
Proof.
  intros Hok Hsub.
  assert (Hinv : ledger_ok (world (run fuel w))
                 ∧ completed_domains (self (world (run fuel w)))
                   ⊆ ledger_set (world (run fuel w))).
  { rewrite run_eval. destruct (fs w !! DOMAINS_FILE) as [content|]; [|done].
    apply run_loop_persists; [apply stripped_lines_clean|done..]. }
  destruct Hinv as [Hok1 Hsub1]. split; [done|]. split; [done|].
  intros d later cycles' fuel' Hd Hfs. apply no_run_main.
  apply Hsub1 in Hd. unfold ledger_set in Hd. rewrite <- Hfs in Hd.
  destruct (fs later !! COMPLETED_FILE) as [content|]; [|set_solver].
  exists content. split; [done|]. by apply elem_of_list_to_set in Hd.
Qed.

(** ** Result files *)

Lemma startswith_slash_app d x :
  x = lit ".json" ∨ x = lit ".verified.json" →
  startswith d (lit "/") = false → startswith (d ++ x) (lit "/") = false.
Proof.
  intros Hx Hd. destruct d as [|c d]; [by destruct Hx as [-> | ->]|].
  change (lit "/") with [47%N] in *. cbn [startswith app] in Hd |- *.
  assert (Hnil : ∀ hay, startswith hay [] = true) by (by intros []).
  by rewrite Hnil in Hd |- *.
Qed.

Lemma path_join_relative a b :
  a ≠ [] → last a ≠ Some 47%N → startswith b (lit "/") = false →
  path_join a b = a ++ lit "/" ++ b.
Proof.
  intros Ha Hlast Hb. unfold path_join. rewrite Hb.
  destruct a as [|c a]; [done|]. by rewrite bool_decide_eq_false_2.
Qed.

Lemma output_file_relative d :
  startswith d (lit "/") = false →
  output_file d = RESULTS_DIR ++ lit "/" ++ d ++ lit ".json".
Proof.
  intros Hd. unfold output_file. apply path_join_relative.
  - by vm_compute.
  - by vm_compute.
  - apply startswith_slash_app; [by left|done].
Qed.

Lemma verified_file_relative d :
  startswith d (lit "/") = false →
  verified_file d = VERIFIED_DIR ++ lit "/" ++ d ++ lit ".verified.json".
Proof.
  intros Hd. unfold verified_file. apply path_join_relative.
  - by vm_compute.
  - by vm_compute.
  - apply startswith_slash_app; [by right|done].
Qed.

(** X15. Targets whose names do not start with a slash have result files of
    their own: two of them share neither their raw-results file nor their
    verified-results file, and the raw-results file of one is never the
    verified-results file of another. *)
Theorem X15_result_files_apart (d1 d2 : pystr) :
  startswith d1 (lit "/") = false →
  startswith d2 (lit "/") = false →
  (output_file d1 = output_file d2 → d1 = d2)
  ∧ (verified_file d1 = verified_file d2 → d1 = d2)
  ∧ output_file d1 ≠ verified_file d2.
Proof.
  intros H1 H2.
  rewrite !output_file_relative, !verified_file_relative by done.
  split; [|split].
  - intros Heq. do 2 apply app_inv_head in Heq. by apply app_inv_tail in Heq.
  - intros Heq. do 2 apply app_inv_head in Heq. by apply app_inv_tail in Heq.
  - intros Heq. apply (f_equal (λ l, l !! 28%nat)) in Heq.
    rewrite !lookup_app_l in Heq by (vm_compute; lia).
    vm_compute in Heq. discriminate Heq.
Qed.

(** ** Exceptions *)

(** X16. An exception raised by the scan of the first target of the list
    ends the process: no later target is scanned, the crash message is
    posted after the events of that scan, and the process exits. *)
Theorem X16_exception_in_scan_ends_process (cycles fuel : nat) (w : World)
    (content d : pystr) (rest : list pystr) (e : exn) :
  out (__init__ w) = Ret tt →
  fs w !! DOMAINS_FILE = Some content →
  stripped_lines content = d :: rest →
  d ∉ ledger_set w →
  out (scan_domain fuel d (world (__init__ w))) = Raise e →
  main (S cycles) fuel w =
    Res (Ret tt) (world (scan_domain fuel d (world (__init__ w))))
      (started_post :: events (scan_domain fuel d (world (__init__ w)))
       ++ [crash_post e]).
Proof.
  intros Hinit Hfs Hlines Hnew Hraise.
  rewrite main_eval, main_try_eval. revert Hinit Hraise.
  rewrite init_eval. destruct (_load_pats w) as [[pats| |] w' evs]; [|done..].
  intros _ Hraise. cbn [world] in Hraise |- *.
  set (w1 := set_self _ w) in *.
  rewrite run_continuously_step, run_eval. cbn [fs set_self w1]. rewrite Hfs, Hlines.
  rewrite run_loop_cons. rewrite bool_decide_eq_false_2 by done.
  cbv zeta. rewrite Hraise. cbn [out world events]. done.
Qed.

(** ** Sleeps *)










(** ** Files after a successful scan *)

Lemma output_file_not_verified_file domain :
  output_file domain ≠ verified_file domain.
Proof.
  destruct (startswith domain (lit "/")) eqn:Hd.
  - assert (Habs : ∀ a x, startswith (domain ++ x) (lit "/") = true
                          ∧ path_join a (domain ++ x) = domain ++ x).
    { intros a x. assert (Hs : startswith (domain ++ x) (lit "/") = true).
      { destruct domain as [|c d]; [done|].
        change (lit "/") with [47%N] in *. cbn [startswith app] in Hd |- *.
        assert (Hnil : ∀ hay, startswith hay [] = true) by (by intros []).
        by rewrite Hnil in Hd |- *. }
      split; [done|]. unfold path_join. by rewrite Hs. }
    unfold output_file, verified_file.
    rewrite (proj2 (Habs _ _)), (proj2 (Habs _ _)).
    intros Heq. apply app_inv_head in Heq. discriminate Heq.
  - rewrite output_file_relative, verified_file_relative by done.
    intros Heq. apply (f_equal (λ l, l !! 28%nat)) in Heq.
    rewrite !lookup_app_l in Heq by (vm_compute; lia).
    vm_compute in Heq. discriminate Heq.
Qed.

(** X19. After a scan that returned [True], the raw-results file of the
    target holds the dump of the findings parsed from the output of an
    engine run that exited with zero.  The verified-results file holds the
    dump of the findings that passed the filter when there is one; when
    there is none the file is as it was before the scan, a file of an
    earlier scan included. *)
Theorem X19_files_after_success (fuel : nat) (domain : pystr) (w : World) :
  let r := scan_domain fuel domain w in
  out r = Ret true →
  ∃ stdout pat n,
    engine n domain pat = Exit0 stdout
    ∧ let findings := omap valid_record (splitlines stdout) in
      let verified := filter (λ f, passes_filter f = true) findings in
      fs (world r) !! output_file domain = Some (json_dump findings)
      ∧ fs (world r) !! verified_file domain =
          match verified with
          | [] => fs w !! verified_file domain
          | _ => Some (json_dump verified)
          end.
Proof.
  cbv zeta. unfold scan_domain. intros Hout.
  destruct (scan_loop_shape fuel domain 0 w)
    as (pre & w1 & _ & (Hfs & _ & _) & [Hfail|(stdout & pat & n & Heng & Hr)]).
  { by destruct Hfail as [Hf|[Hf|[e Hf]]]; rewrite Hf in Hout. }
  exists stdout, pat, n. split; [done|].
  rewrite Hr in Hout |- *. rewrite scan_success_eval in Hout |- *.
  cbv zeta in Hout |- *.
  pose proof (verified_loop_exact (omap valid_record (splitlines stdout))) as Hex.
  destruct (verified_loop _ []) as [verified|e]; [|done].
  destruct Hex as [-> _].
  pose proof (output_file_not_ledger domain) as H1.
  pose proof (verified_file_not_ledger domain) as H2.
  pose proof (output_file_not_verified_file domain) as H3.
  cbn [world prepend]. unfold mark_completed, write_verified, write_raw. cbn.
  rewrite !lookup_insert_ne by done.
  destruct (filter _ _) as [|v vs]; cbn.
  - rewrite lookup_insert_eq, lookup_insert_ne by done. by rewrite Hfs.
  - rewrite lookup_insert_ne by done. by rewrite !lookup_insert_eq.
Qed.

(** X20. For a finding that passed the verified filter the notifier reads
    its fields without an exception: the finding has a block exactly when
    its permalink is true, and the block is the one made of its detector
    name, its file path and that permalink. *)
Theorem X20_filtered_finding_block (f : json) :
  passes_filter f = true →
  ∃ o g,
    f = JObj o ∧ github_data f = Ok (JObj g)
    ∧ secret_block f =
        if truthy (permalink f)
        then Some (alert_block
                     (dict_get o (lit "DetectorName") (JStr (lit "Unknown Secret")))
                     (dict_get g (lit "file") (JStr (lit "Unknown file")))
                     (permalink f))
        else None.
Proof.
  unfold passes_filter. intros Hpass.
  apply andb_true_iff in Hpass as [Hpass Hgh].
  apply andb_true_iff in Hpass as [Hdict _].
  destruct f as [| | | | | |o]; try done.
  destruct (github_data (JObj o)) as [[| | | | | |g]|e] eqn:Hdata; try done.
  exists o, g. split; [done|]. split; [done|].
  unfold secret_block, alert_fields, permalink. rewrite Hdata.
  cbn [isinstance_dict]. unfold mbind, pyres_mbind, mret, pyres_mret.
  cbn [py_get pyres_bind]. done.
Qed.

End Scanner.

(** * The properties on the sample data *)

(** C1, on a scan that succeeds at once. *)
Lemma C1_verified_filter_witness :
  out (scan_domain sample_loads sample_dump sample_str engine_succeeds
         sample_seconds 1 (lit "acme") sample_world) = Ret true
  ∧ ∃ pre stdout verified chunks,
      Forall (quiet (lit "acme")) pre
      ∧ verified_loop (omap (valid_record sample_loads) (splitlines stdout)) []
        = Ok verified
      ∧ events (scan_domain sample_loads sample_dump sample_str engine_succeeds
                  sample_seconds 1 (lit "acme") sample_world) =
          pre ++ EvDump (output_file (lit "acme"))
                   (omap (valid_record sample_loads) (splitlines stdout))
          :: match verified with
             | [] => []
             | _ => EvDump (verified_file (lit "acme")) verified
                    :: map EvPost (render_chunks (lit "acme")
                                     (alert_header (lit "acme")) chunks)
             end
          ++ [EvAppend COMPLETED_FILE (lit "acme" ++ [10%N])]
      ∧ concat chunks = omap (secret_block sample_str) verified
      ∧ ∀ f, (truthy (verified_flag f) = false → f ∉ verified)
             ∧ (truthy (permalink f) = false → secret_block sample_str f = None).
Proof.
  split; [vm_compute; reflexivity|].
  apply (C1_verified_filter sample_loads sample_dump sample_str engine_succeeds
           sample_seconds 1 (lit "acme") sample_world).
  vm_compute. reflexivity.
Defined.

(** C1 as stated fails: the finding [sample_nolink] is verified and has no
    permalink, and the scan writes it into the verified-results artifact (it
    has no block in the alert, which carries the block of [sample_verified]
    alone). *)
Lemma C1_verified_artifact_keeps_finding_without_permalink :
  truthy (verified_flag sample_nolink) = true
  ∧ permalink sample_nolink = JStr []
  ∧ events (scan_domain sample_loads sample_dump sample_str engine_succeeds
              sample_seconds 1 (lit "acme") sample_world) =
      [EvRun (lit "acme") (lit "tok2");
       EvDump (output_file (lit "acme"))
         [sample_verified; sample_unverified; sample_nolink];
       EvDump (verified_file (lit "acme")) [sample_verified; sample_nolink];
       EvPost (alert_header (lit "acme")
               ++ alert_block sample_str (JStr (lit "AWS")) (JStr (lit "a.py"))
                    (JStr (lit "http://x")));
       EvAppend COMPLETED_FILE (lit "acme" ++ [10%N])].
Proof. repeat split; vm_compute; reflexivity. Qed.

(** C2 as stated fails: a run that ends with "403" in the diagnostics puts
    the credential into the cool-down map. *)
Lemma C2_invoker_marks_credential :
  rate_limited_pats (self sample_world) !! lit "tok1" = None
  ∧ rate_limited_pats
      (self (world (_run_trufflehog engine_rate_limited sample_seconds
                      (lit "acme") (lit "tok1") sample_world))) !! lit "tok1"
    = Some 1307.
Proof. split; vm_compute; reflexivity. Qed.

(** C3 as stated fails: with two blocks of which the second takes the
    message over 3000 characters, the program posts one message that holds
    both, where the specification's notifier posts the first block alone and
    opens a continued message with the second. *)
Lemma C3_crossing_block_stays_in_flushed_message :
  let b1 := alert_block sample_str (JStr (lit "AWS")) (JStr (repeat 97%N 1500))
              (JStr (lit "http://z")) in
  let secrets := [sample_long 1500; sample_long 1500] in
  len (alert_header (lit "acme") ++ b1) ≤ 3000
  ∧ 3000 < len (alert_header (lit "acme") ++ b1 ++ b1)
  ∧ events (_send_telegram_alert sample_str (lit "acme") secrets sample_world)
    = [EvPost (alert_header (lit "acme") ++ b1 ++ b1)]
  ∧ spec_alert sample_str (lit "acme") secrets
    = [alert_header (lit "acme") ++ b1; continued_header (lit "acme") ++ b1].
Proof. cbv zeta. repeat split; vm_compute; try reflexivity; discriminate. Qed.




(** C6, on a pool whose three credentials cool until 2000, asked at 1500,
    and on a credential marked at 1007. *)
Lemma C6_cooldown_exclusion_witness :
  cooling (self (world (_run_trufflehog engine_rate_limited sample_seconds
                          (lit "acme") (lit "tok1") sample_world)))
          1306 (lit "tok1")
  ∧ (get_available_pat 1500 sample_pool_cooling).1 ≠ Ok (Some (lit "tok1"))
  ∧ get_available_pat 1500 sample_pool_cooling = (Ok None, sample_pool_cooling).
Proof.
  assert (Hcool : ∀ pat, pat ∈ pats sample_pool_cooling →
                         cooling sample_pool_cooling 1500 pat).
  { intros pat Hin. exists 2000. split; [|lia].
    repeat (apply elem_of_cons in Hin as [->|Hin]); try (vm_compute; reflexivity).
    by apply elem_of_nil in Hin. }
  destruct (C6_cooldown_exclusion engine_rate_limited sample_seconds
              sample_pool_cooling 1306) as (H1 & _ & _).
  destruct (C6_cooldown_exclusion engine_rate_limited sample_seconds
              sample_pool_cooling 1500) as (_ & H2 & H3).
  split; [|split].
  - destruct (H1 (lit "acme") (lit "tok1") sample_world (lit "error: 403 Forbidden"))
      as [_ Hiff]; [reflexivity|vm_compute; reflexivity|].
    apply Hiff. vm_compute. reflexivity.
  - apply H2, Hcool. by left.
  - apply H3; [cbn; lia|exact Hcool].
Defined.

(** C7, on the sample pool and an engine that is always rate-limited. *)
Lemma C7_retry_ceiling_witness :
  out (scan_domain sample_loads sample_dump sample_str engine_rate_limited
         sample_seconds 7 (lit "acme") sample_world) = Ret false
  ∧ engine_starts
      (events (scan_domain sample_loads sample_dump sample_str engine_rate_limited
                 sample_seconds 7 (lit "acme") sample_world)) =
      [(lit "acme", lit "tok2"); (lit "acme", lit "tok3"); (lit "acme", lit "tok1")]
  ∧ length
      (engine_starts
         (events (scan_domain sample_loads sample_dump sample_str engine_rate_limited
                    sample_seconds 7 (lit "acme") sample_world))) = 3%nat.
Proof.
  destruct (C7_retry_ceiling sample_loads sample_dump sample_str engine_rate_limited
              sample_seconds 7 (lit "acme") sample_world) as (H1 & H2 & _).
  - repeat split.
    + cbn. lia.
    + intros Hin. cbn in Hin.
      repeat (apply elem_of_cons in Hin as [Heq|Hin]; [discriminate Heq|]).
      by apply elem_of_nil in Hin.
    + intros pat e He. cbn in He. by rewrite lookup_empty in He.
  - intros n pat. vm_compute. reflexivity.
  - lia.
  - split; [exact H1|]. split; [vm_compute; reflexivity|exact H2].
Defined.

(** C9, on a world where [acme] is completed, in the set and in the ledger. *)
Lemma C9_completed_never_scanned_witness :
  (∀ pat, EvRun (lit "acme") pat
          ∉ events (run sample_loads sample_dump sample_str engine_succeeds
                      sample_seconds 3 sample_world_completed))
  ∧ (∀ pat, EvRun (lit "acme") pat
            ∉ events (main sample_loads sample_dump sample_str sample_strftime
                        engine_succeeds sample_seconds 2 3 sample_world_completed)).
Proof.
  destruct (C9_completed_never_scanned sample_loads sample_dump sample_str
              sample_strftime engine_succeeds sample_seconds 2 3
              sample_world_completed (lit "acme")) as (H1 & H2 & _).
  split.
  - apply H1. cbn. by apply elem_of_singleton.
  - apply H2. exists (lit "acme" ++ [10%N]). split; [vm_compute; reflexivity|].
    vm_compute. by left.
Defined.


(** * The further properties on the sample data *)

Lemma sample_world_ready : pool_ready sample_world.
Proof.
  repeat split.
  - cbn. lia.
  - intros Hin. cbn in Hin.
    repeat (apply elem_of_cons in Hin as [Heq|Hin]; [discriminate Heq|]).
    by apply elem_of_nil in Hin.
  - intros pat e He. cbn in He. by rewrite lookup_empty in He.
Qed.

Lemma sample_names_clean : Forall clean [lit "acme"; lit "b c"].
Proof.
  repeat constructor; try discriminate; vm_compute; congruence.
Qed.

(** X4, on the alert for one verified finding. *)
Lemma X4_alert_message_length_witness :
  ∃ h init b,
    (h = alert_header (lit "acme") ∨ h = continued_header (lit "acme"))
    ∧ alert_header (lit "acme")
      ++ alert_block sample_str (JStr (lit "AWS")) (JStr (lit "a.py"))
           (JStr (lit "http://x"))
      = h ++ concat init ++ b
    ∧ b ∈ omap (secret_block sample_str) [sample_verified]
    ∧ len (alert_header (lit "acme")
           ++ alert_block sample_str (JStr (lit "AWS")) (JStr (lit "a.py"))
                (JStr (lit "http://x")))
      ≤ Z.max 3000 (len h) + len b.
Proof.
  apply (X4_alert_message_length sample_str (lit "acme") [sample_verified]
           sample_world).
  assert (Hev : events (_send_telegram_alert sample_str (lit "acme")
                          [sample_verified] sample_world) =
                [EvPost (alert_header (lit "acme")
                         ++ alert_block sample_str (JStr (lit "AWS"))
                              (JStr (lit "a.py")) (JStr (lit "http://x")))])
    by (vm_compute; reflexivity).
  rewrite Hev. apply list_elem_of_singleton. reflexivity.
Defined.

(** X5, on the sample pool with the cursor on the second credential. *)
Lemma X5_next_available_witness :
  get_available_pat 1000 sample_pool =
    (Ok (Some (lit "tok2")),
     mkScanner [lit "tok1"; lit "tok2"; lit "tok3"] ∅ (delete (lit "tok2") ∅) 2).
Proof.
  assert (Hidx : (current_pat_index sample_pool < length (pats sample_pool))%nat)
    by (cbn; lia).
  exact (X5_next_available_is_first_usable sample_pool 1000 Hidx).
Defined.

(** X7, on the sample world and an engine that is always rate-limited. *)
Lemma X7_scan_ends_witness :
  out (scan_domain sample_loads sample_dump sample_str engine_rate_limited
         sample_seconds 9 (lit "acme") sample_world) ≠ OutOfFuel
  ∧ scan_domain sample_loads sample_dump sample_str engine_rate_limited
      sample_seconds 9 (lit "acme") sample_world
    = scan_domain sample_loads sample_dump sample_str engine_rate_limited
        sample_seconds 7 (lit "acme") sample_world.
Proof.
  destruct (X7_scan_ends sample_loads sample_dump sample_str engine_rate_limited
              sample_seconds 9 (lit "acme") sample_world sample_world_ready)
    as (H1 & H2 & _); [lia|].
  split; [exact H1|exact H2].
Defined.

(** X8, on the sample world and an engine that succeeds. *)
Lemma X8_pass_ends_witness :
  out (run sample_loads sample_dump sample_str engine_succeeds sample_seconds
         8 sample_world) ≠ OutOfFuel
  ∧ pool_ready (world (run sample_loads sample_dump sample_str engine_succeeds
                         sample_seconds 8 sample_world)).
Proof.
  destruct (X8_pass_ends sample_loads sample_dump sample_str engine_succeeds
              sample_seconds 8 sample_world sample_world_ready)
    as (H1 & _ & H3); [lia|].
  split; [exact H1|exact H3].
Defined.

(** X9, on a start with one credential. *)
Lemma X9_init_state_witness :
  pats (self (world (__init__ sample_world_startup))) = [lit "tok1"]
  ∧ pool_ready (world (__init__ sample_world_startup))
  ∧ events (__init__ sample_world_startup) = [].
Proof.
  destruct (X9_init_state sample_world_startup) as (_ & _ & _ & _ & _ & H6 & _ & H8).
  - vm_compute. reflexivity.
  - split; [vm_compute; reflexivity|]. split; [exact H6|exact H8].
Defined.

(** X11, on a ledger of two names. *)
Lemma X11_ledger_round_trip_witness :
  stripped_lines (ledger_text [lit "acme"; lit "b c"]) = [lit "acme"; lit "b c"].
Proof.
  apply (X11_ledger_round_trip [lit "acme"; lit "b c"]), sample_names_clean.
Defined.

(** X14, on the world where [acme] is completed and in the ledger. *)
Lemma X14_completion_survives_restart_witness :
  ledger_ok (world (run sample_loads sample_dump sample_str engine_succeeds
                      sample_seconds 7 sample_world_completed))
  ∧ ∀ pat, EvRun (lit "acme") pat
           ∉ events (main sample_loads sample_dump sample_str sample_strftime
                       engine_succeeds sample_seconds 1 7
                       (world (run sample_loads sample_dump sample_str
                                 engine_succeeds sample_seconds 7
                                 sample_world_completed))).
Proof.
  assert (Hclean : Forall clean [lit "acme"]).
  { pose proof sample_names_clean as H. by apply Forall_cons in H as [? _];
      repeat constructor. }
  assert (Htext : default [] (fs sample_world_completed !! COMPLETED_FILE)
                  = ledger_text [lit "acme"]) by (vm_compute; reflexivity).
  destruct (X14_completion_survives_restart sample_loads sample_dump sample_str
              sample_strftime engine_succeeds sample_seconds 7
              sample_world_completed) as (H1 & _ & H3).
  - by exists [lit "acme"].
  - rewrite (ledger_ok_set _ _ Hclean Htext). cbn. set_solver.
  - split; [exact H1|]. apply H3; [|reflexivity].
    apply run_keeps. cbn. by apply elem_of_singleton.
Defined.

(** X15, on two targets. *)
Lemma X15_result_files_apart_witness :
  output_file (lit "acme") ≠ verified_file (lit "beta")
  ∧ (output_file (lit "acme") = output_file (lit "beta") → lit "acme" = lit "beta").
Proof.
  destruct (X15_result_files_apart (lit "acme") (lit "beta")) as (H1 & _ & H3);
    [reflexivity|reflexivity|].
  split; [exact H3|exact H1].
Defined.

(** X16, on a start whose first scan meets a finding that cannot be read. *)
Lemma X16_exception_in_scan_ends_process_witness :
  out (main sample_loads_unreadable sample_dump sample_str sample_strftime
         engine_reports_unreadable sample_seconds 1 1 sample_world_startup)
  = Ret tt
  ∧ events (main sample_loads_unreadable sample_dump sample_str sample_strftime
              engine_reports_unreadable sample_seconds 1 1 sample_world_startup)
    = [started_post;
       EvRun (lit "acme") (lit "tok1");
       EvDump (output_file (lit "acme")) [sample_unreadable];
       crash_post (Exn AttributeError (lit "'str' object has no attribute 'get'"))].
Proof.
  pose proof (X16_exception_in_scan_ends_process sample_loads_unreadable
                sample_dump sample_str sample_strftime engine_reports_unreadable
                sample_seconds 0 1 sample_world_startup (lit "acme" ++ [10%N])
                (lit "acme") []
                (Exn AttributeError (lit "'str' object has no attribute 'get'")))
    as H.
  rewrite H.
  - split; [reflexivity|vm_compute; reflexivity].
  - vm_compute. reflexivity.
  - vm_compute. reflexivity.
  - vm_compute. reflexivity.
  - vm_compute. set_solver.
  - vm_compute. reflexivity.
Defined.



(** X19, on a scan that succeeds at once. *)
Lemma X19_files_after_success_witness :
  ∃ stdout pat n,
    engine_succeeds n (lit "acme") pat = Exit0 stdout
    ∧ fs (world (scan_domain sample_loads sample_dump sample_str engine_succeeds
                   sample_seconds 1 (lit "acme") sample_world))
        !! output_file (lit "acme")
      = Some (sample_dump (omap (valid_record sample_loads) (splitlines stdout))).
Proof.
  destruct (X19_files_after_success sample_loads sample_dump sample_str
              engine_succeeds sample_seconds 1 (lit "acme") sample_world)
    as (stdout & pat & n & H1 & H2 & _); [vm_compute; reflexivity|].
  exists stdout, pat, n. split; [exact H1|exact H2].
Defined.

(** X20, on the verified finding with a permalink. *)
Lemma X20_filtered_finding_block_witness :
  secret_block sample_str sample_verified =
    Some (alert_block sample_str (JStr (lit "AWS")) (JStr (lit "a.py"))
            (JStr (lit "http://x"))).
Proof.
  destruct (X20_filtered_finding_block sample_str sample_verified)
    as (o & g & Ho & Hg & H); [vm_compute; reflexivity|].
  injection Ho as <-. vm_compute in Hg. injection Hg as <-.
  rewrite H. vm_compute. reflexivity.
Defined.
